(** * conda/activate.py: the shell activation engine

    A shallow embedding of [conda/activate.py] (class [_Activator] and its
    helpers) together with the properties of the search-path editor, the
    activation state machine and the command renderer.

    Conventions of the embedding:
    - a Python [str] is a [string] (code points below 256);
    - [self.environ] is a finite map from names to values;
    - a Python [dict] built by the engine is an association list in
      insertion order whose keys are pairwise distinct;
    - a raised exception is the [Raise] branch of [result];
    - everything the module imports from the operating system, from the
      interpreter and from [conda.base.context] is a field of [Host]. *)

From Stdlib Require Import ZArith String Ascii List Lia.
From stdpp Require Import base option list sorting gmap strings pretty.

Local Open Scope string_scope.
Local Open Scope list_scope.
Local Open Scope nat_scope.

(** ** Exceptions and the result monad *)

Inductive exn : Type :=
| ArgumentError (msg : string)
| ActivateHelp
| DeactivateHelp
| GenericHelp (command : string)
| EnvironmentLocationNotFound (prefix : string)
| EnvironmentNameNotFound (name : string)
| AssertionError
| KeyError (key : string)
| IndexError
| ValueError
| TypeError
| CalledProcessError
| NotImplementedError
| IOError.

Inductive result (A : Type) : Type :=
| Ok (a : A)
| Raise (e : exn).
Arguments Ok {A} a.
Arguments Raise {A} e.

Global Instance result_ret : MRet result := λ A a, Ok a.
Global Instance result_bind : MBind result := λ A B f m,
  match m with
  | Ok a => f a
  | Raise e => Raise e
  end.
Global Instance result_fmap : FMap result := λ A B f m,
  match m with
  | Ok a => Ok (f a)
  | Raise e => Raise e
  end.

Definition is_Ok {A} (r : result A) : Prop := ∃ a, r = Ok a.

(** ** Python strings *)

Module PyStr.

(** The double quote, the line feed and the carriage return. *)
Definition dq : string := String "034"%char EmptyString.
Definition nl : string := String "010"%char EmptyString.
Definition cr : string := String "013"%char EmptyString.

Definition is_empty (s : string) : bool :=
  match s with
  | EmptyString => true
  | String _ _ => false
  end.

(** [str.isspace] on the code points below 256. *)
Definition isspace (c : ascii) : bool :=
  let n := nat_of_ascii c in
  ((9 <=? n) && (n <=? 13)) || ((28 <=? n) && (n <=? 32))
  || (n =? 133) || (n =? 160).

Fixpoint lstrip (s : string) : string :=
  match s with
  | EmptyString => EmptyString
  | String c s' => if isspace c then lstrip s' else s
  end.

Fixpoint rstrip (s : string) : string :=
  match s with
  | EmptyString => EmptyString
  | String c s' =>
      match rstrip s' with
      | EmptyString => if isspace c then EmptyString else String c EmptyString
      | r => String c r
      end
  end.

(** [s.strip()] *)
Definition strip (s : string) : string := rstrip (lstrip s).

(** A string made of white space only (the empty string included). *)
Fixpoint blank (s : string) : bool :=
  match s with
  | EmptyString => true
  | String c s' => isspace c && blank s'
  end.

Definition digit_of (c : ascii) : option Z :=
  let n := nat_of_ascii c in
  if (48 <=? n) && (n <=? 57) then Some (Z.of_nat (n - 48)) else None.

(** The digits of an integer literal: decimal digits, single underscores
    allowed between two digits. [prev] tells whether the previous
    character was a digit. *)
Fixpoint int_digits (acc : Z) (prev : bool) (s : string) : option Z :=
  match s with
  | EmptyString => if prev then Some acc else None
  | String c s' =>
      match digit_of c with
      | Some d => int_digits (10 * acc + d)%Z true s'
      | None =>
          if prev && bool_decide (c = "_"%char)
          then int_digits acc false s'
          else None
      end
  end.

(** [int(s)] for a string [s]: [ValueError] unless [s] is, up to
    surrounding white space, an optionally signed decimal literal. *)
Definition int (s : string) : result Z :=
  let body (t : string) : option Z :=
    match t with
    | String "+"%char r => int_digits 0%Z false r
    | String "-"%char r => Z.opp <$> int_digits 0%Z false r
    | _ => int_digits 0%Z false t
    end in
  match body (strip s) with
  | Some n => Ok n
  | None => Raise ValueError
  end.

(** [sep.join(l)] *)
Fixpoint join (sep : string) (l : list string) : string :=
  match l with
  | [] => EmptyString
  | [x] => x
  | x :: l' => x +:+ sep +:+ join sep l'
  end.

(** [s.split(c)] for a one-character separator: never the empty list. *)
Fixpoint split (c : ascii) (s : string) : list string :=
  match s with
  | EmptyString => [EmptyString]
  | String d s' =>
      if bool_decide (d = c) then EmptyString :: split c s'
      else match split c s' with
           | [] => [String d EmptyString]
           | w :: ws => String d w :: ws
           end
  end.

Fixpoint startswith (p s : string) : bool :=
  match p, s with
  | EmptyString, _ => true
  | String a p', String b s' => bool_decide (a = b) && startswith p' s'
  | String _ _, EmptyString => false
  end.

(** [replace_go old new skip s]: replace the occurrences of [old] in [s]
    from left to right without overlap; [skip] counts the characters of
    a match still to be dropped. *)
Fixpoint replace_go (old new : string) (skip : nat) (s : string) : string :=
  match s with
  | EmptyString => EmptyString
  | String c s' =>
      match skip with
      | S k => replace_go old new k s'
      | O =>
          if startswith old s
          then new +:+ replace_go old new (String.length old - 1) s'
          else String c (replace_go old new 0 s')
      end
  end.

(** [s.replace(old, new)] for a non-empty [old]. *)
Definition replace (old new s : string) : string := replace_go old new 0 s.

(** [re.search(r'\\|/', s)]: does [s] hold a backslash or a slash? *)
Fixpoint has_path_separator (s : string) : bool :=
  match s with
  | EmptyString => false
  | String c s' =>
      bool_decide (c = "\"%char) || bool_decide (c = "/"%char)
      || has_path_separator s'
  end.

End PyStr.

(** ** Values, dictionaries and instruction sets *)

(** What the engine stores in a dictionary: a string, an integer (the
    level) or [None] (a variable read from the environment and absent). *)
Inductive value : Type :=
| VStr (s : string)
| VInt (n : Z)
| VNone.

(** [str(v)], which the [%s] conversion of a template applies. *)
Definition str (v : value) : string :=
  match v with
  | VStr s => s
  | VInt n => pretty n
  | VNone => "None"
  end.

Definition value_of_opt (o : option string) : value :=
  match o with
  | Some s => VStr s
  | None => VNone
  end.

Global Instance value_eq_dec : EqDecision value.
Proof. solve_decision. Defined.

Abbreviation dict := (list (string * value)).

Module Dict.

(** [d[k] = v]: the value is replaced where the key stands, a new key
    goes to the end. *)
Fixpoint update (k : string) (v : value) (d : dict) : dict :=
  match d with
  | [] => [(k, v)]
  | (k', v') :: d' =>
      if decide (k' = k) then (k, v) :: d' else (k', v') :: update k v d'
  end.

(** A dictionary display [{k1: v1, ..., kn: vn}]. *)
Definition literal (items : list (string * value)) : dict :=
  foldl (λ d kv, update kv.1 kv.2 d) [] items.

Definition keys (d : dict) : list string := d.*1.

(** [d.get(k)] *)
Fixpoint get (k : string) (d : dict) : option value :=
  match d with
  | [] => None
  | (k', v) :: d' => if decide (k' = k) then Some v else get k d'
  end.

End Dict.

(** The map returned by the [build_*] methods. *)
Record cmds_dict : Type := {
  unset_vars : list string;
  set_vars : dict;
  export_vars : dict;
  deactivate_scripts : list string;
  activate_scripts : list string;
}.

(** The map returned when there is nothing to do. *)
Definition no_op : cmds_dict :=
  {| unset_vars := []; set_vars := []; export_vars := [];
     deactivate_scripts := []; activate_scripts := [] |}.

(** ** The host: operating system, interpreter and conda context *)

Record Host : Type := {
  (** [sys] and [os] *)
  on_win : bool;
  os_pathsep : ascii;
  sys_prefix : string;
  sys_executable : string;
  (** [os.path] *)
  abspath : string → string;
  basename : string → string;
  dirname : string → string;
  expanduser : string → string;
  expandvars : string → string;
  isdir : string → bool;
  join : string → list string → string;
  normcase : string → string;
  (** [glob.glob] *)
  glob : string → list string;
  (** The text that [cygpath --path -f -] (or, without that program, the
      substitution of [native_path_to_unix]) prints for a joined path;
      [None] when the program fails. *)
  cygpath : string → option string;
  (** [ctypes.cdll.kernel32.GetACP()] *)
  GetACP : Z;
  (** The text of a file, as [open(path).read()] returns it. *)
  read_file : string → result string;
  (** [conda.CONDA_PACKAGE_ROOT] and [conda.base.context] *)
  CONDA_PACKAGE_ROOT : string;
  ROOT_ENV_NAME : string;
  root_prefix : string;
  conda_prefix : string;
  conda_exe : string;
  changeps1 : bool;
  auto_activate_base : bool;
  (** [context.env_prompt.format(default_env=.., prefix=.., name=..)] *)
  env_prompt : string → string → string → string;
  locate_prefix_by_name : string → result string;
}.

(** [expand(path)] *)
Definition expand (h : Host) (path : string) : string :=
  abspath h (expanduser h (expandvars h path)).

(** [paths_equal(path1, path2)] *)
Definition paths_equal (h : Host) (path1 path2 : string) : bool :=
  if on_win h
  then bool_decide (normcase h (abspath h path1) = normcase h (abspath h path2))
  else bool_decide (abspath h path1 = abspath h path2).

(** [path_identity(paths)], on a string and on a sequence. *)
Definition path_identity {A} (paths : A) : A := paths.

(** The call of [cygpath] in [native_path_to_unix]. *)
Definition run_cygpath (h : Host) (joined : string) : result string :=
  match cygpath h joined with
  | Some stdout => Ok stdout
  | None => Raise CalledProcessError
  end.

(** [native_path_to_unix(paths)] on one path. *)
Definition native_path_to_unix_str (h : Host) (paths : string) : result string :=
  if negb (on_win h) then Ok (path_identity paths)
  else
    stdout ← run_cygpath h paths;
    match (if PyStr.is_empty stdout then [] else PyStr.split ":" stdout) with
    | [] => Raise IndexError
    | p :: _ => Ok p
    end.

(** [native_path_to_unix(paths)] on a sequence of paths. *)
Definition native_path_to_unix_seq (h : Host) (paths : list string)
  : result (list string) :=
  if negb (on_win h) then Ok (path_identity paths)
  else
    stdout ← run_cygpath h (PyStr.join (String (os_pathsep h) EmptyString) paths);
    Ok (if PyStr.is_empty stdout then [] else PyStr.split ":" stdout).

(** ** Python list slices *)

(** [del l[i:j]] for indices that are not negative. *)
Definition del_slice {A} (i j : nat) (l : list A) : list A :=
  take i l ++ drop (i `max` j) l.

(** [l[i:i] = xs] *)
Definition insert_slice {A} (i : nat) (xs l : list A) : list A :=
  take i l ++ xs ++ drop i l.

(** [sorted(l)] on strings, and [sorted(l, reverse=True)]. *)
Definition sorted (l : list string) : list string := merge_sort String.le l.
Definition sorted_reverse (l : list string) : list string :=
  reverse (merge_sort String.le (reverse l)).

(** The order of [sorted(iteritems(d))]: the keys of a dictionary are
    pairwise distinct, so the comparison of two items is decided by their
    keys. *)
Definition item_le (x y : string * value) : Prop := String.le x.1 y.1.
Global Instance item_le_dec : RelDecision item_le.
Proof. intros x y. unfold item_le. apply _. Defined.
Definition sorted_items (d : dict) : dict := merge_sort item_le d.

(** ** The activator class *)

(** The two functions a shell may choose as [path_conversion]. *)
Inductive converter : Type :=
| NativePathToUnix
| PathIdentity.

(** The attributes every implementation of [_Activator] defines, and the
    methods a subclass may override. A template [tmpl] is given by the
    function [fun args => tmpl % args]; [pathsep_join] is the string whose
    [join] method the attribute holds. *)
Record Activator : Type := {
  pathsep_join : string;
  sep : string;
  path_conversion : converter;
  script_extension : string;
  tempfile_extension : option string;
  command_join : string;
  unset_var_tmpl : string → string;
  export_var_tmpl : string → string → string;
  set_var_tmpl : string → string → string;
  run_script_tmpl : string → string;
  hook_source_path : option string;
  _update_prompt : gmap string string → dict → string → dict;
  _build_activate_shell_custom : dict → dict;
  _hook_preamble : result string;
}.

Section activator.

Variable h : Host.
Variable self : Activator.
(** [self.environ], the snapshot of [os.environ] taken by [__init__]. *)
Variable environ : gmap string string.

(** [self.path_conversion(x)] on a string, on [None] or a string, and
    on a sequence. *)
Definition path_conversion_str (path : string) : result string :=
  match path_conversion self with
  | NativePathToUnix => native_path_to_unix_str h path
  | PathIdentity => Ok (path_identity path)
  end.

Definition path_conversion_opt (path : option string) : result (option string) :=
  match path with
  | None => Ok None
  | Some p => Some <$> path_conversion_str p
  end.

Definition path_conversion_seq (paths : list string) : result (list string) :=
  match path_conversion self with
  | NativePathToUnix => native_path_to_unix_seq h paths
  | PathIdentity => Ok (path_identity paths)
  end.

Definition _get_starting_path_list : result (list string) :=
  match environ !! "PATH" with
  | None => Raise (KeyError "PATH")
  | Some path =>
      if on_win h then
        let path_split := PyStr.split (os_pathsep h) path in
        let library_bin := sys_prefix h +:+ "\Library\bin" in
        match path_split with
        | [] => Raise IndexError
        | p0 :: rest =>
            if paths_equal h p0 library_bin then Ok rest else Ok path_split
        end
      else Ok (PyStr.split (os_pathsep h) path)
  end.

Definition _get_path_dirs2 (prefix : string) : list string :=
  if on_win h then
    [ prefix;
      PyStr.join (sep self) [prefix; "Library"; "mingw-w64"; "bin"];
      PyStr.join (sep self) [prefix; "Library"; "usr"; "bin"];
      PyStr.join (sep self) [prefix; "Library"; "bin"];
      PyStr.join (sep self) [prefix; "Scripts"];
      PyStr.join (sep self) [prefix; "bin"] ]
  else
    [ PyStr.join (sep self) [prefix; "bin"] ].

(** The list [path_list] both editors start from. *)
Definition starting_path_list (starting_path_dirs : option (list string))
  : result (list string) :=
  match starting_path_dirs with
  | None => l ← _get_starting_path_list; path_conversion_seq l
  | Some l => path_conversion_seq l
  end.

Definition _add_prefix_to_path (prefix : string)
    (starting_path_dirs : option (list string)) : result (list string) :=
  prefix ← path_conversion_str prefix;
  path_list ← starting_path_list starting_path_dirs;
  Ok (insert_slice 0 (_get_path_dirs2 prefix) path_list).

(** The local function [index_of_path] of [_replace_prefix_in_path]. *)
Fixpoint index_of_path (paths : list string) (test_path : string) : option nat :=
  match paths with
  | [] => None
  | path :: paths' =>
      if paths_equal h path test_path then Some 0
      else S <$> index_of_path paths' test_path
  end.

(** The removal step of [_replace_prefix_in_path]: the insertion index
    and the list left, or the failed assertion. *)
Definition remove_step (old_prefix : option string) (path_list : list string)
  : result (nat * list string) :=
  match old_prefix with
  | Some old_prefix =>
      let prefix_dirs := _get_path_dirs2 old_prefix in
      match index_of_path path_list (hd EmptyString prefix_dirs) with
      | None => Ok (0, path_list)
      | Some first_idx =>
          match index_of_path path_list (List.last prefix_dirs EmptyString) with
          | None => Raise AssertionError
          | Some last_idx =>
              Ok (first_idx, del_slice first_idx (last_idx + 1) path_list)
          end
      end
  | None => Ok (0, path_list)
  end.

Definition _replace_prefix_in_path (old_prefix new_prefix : option string)
    (starting_path_dirs : option (list string)) : result (list string) :=
  old_prefix ← path_conversion_opt old_prefix;
  new_prefix ← path_conversion_opt new_prefix;
  path_list ← starting_path_list starting_path_dirs;
  '(first_idx, path_list) ← remove_step old_prefix path_list;
  match new_prefix with
  | Some new_prefix =>
      Ok (insert_slice first_idx (_get_path_dirs2 new_prefix) path_list)
  | None => Ok path_list
  end.

Definition _remove_prefix_from_path (prefix : option string)
    (starting_path_dirs : option (list string)) : result (list string) :=
  _replace_prefix_in_path prefix None starting_path_dirs.

(** *** The state reader and the script lists *)

(** [int(self.environ.get('CONDA_SHLVL', '').strip() or 0)] *)
Definition conda_shlvl : result Z :=
  let s := PyStr.strip (default EmptyString (environ !! "CONDA_SHLVL")) in
  if PyStr.is_empty s then Ok 0%Z else PyStr.int s.

(** [not x] for [x] a string or [None]. *)
Definition py_not (x : option string) : bool :=
  match x with
  | None => true
  | Some s => PyStr.is_empty s
  end.

Definition _default_env (prefix : string) : string :=
  if paths_equal h prefix (root_prefix h) then "base"
  else if decide (basename h (dirname h prefix) = "envs")
       then basename h prefix else prefix.

Definition _prompt_modifier (prefix conda_default_env : string) : string :=
  if changeps1 h
  then env_prompt h conda_default_env prefix (basename h prefix)
  else EmptyString.

Definition _get_activate_scripts (prefix : string) : result (list string) :=
  path_conversion_seq (sorted (glob h (join h prefix
    ["etc"; "conda"; "activate.d"; "*" +:+ script_extension self]))).

Definition _get_deactivate_scripts (prefix : string) : result (list string) :=
  path_conversion_seq (sorted_reverse (glob h (join h prefix
    ["etc"; "conda"; "deactivate.d"; "*" +:+ script_extension self]))).

(** [set_vars = {}] followed by the guarded call of [_update_prompt]. *)
Definition prompt_set_vars (conda_prompt_modifier : string) : dict :=
  if changeps1 h then _update_prompt self environ [] conda_prompt_modifier
  else [].

(** *** The state machine *)

Definition build_deactivate : result cmds_dict :=
  let old_conda_prefix := environ !! "CONDA_PREFIX" in
  old_conda_shlvl ← conda_shlvl;
  if py_not old_conda_prefix || (old_conda_shlvl <? 1)%Z then Ok no_op
  else
    let old_prefix := default EmptyString old_conda_prefix in
    deactivate_scripts ← _get_deactivate_scripts old_prefix;
    let new_conda_shlvl := (old_conda_shlvl - 1)%Z in
    if (old_conda_shlvl =? 1)%Z then
      new_path ← _remove_prefix_from_path old_conda_prefix None;
      Ok {| unset_vars := ["CONDA_PREFIX"; "CONDA_DEFAULT_ENV";
                           "CONDA_PYTHON_EXE"; "CONDA_PROMPT_MODIFIER"];
            set_vars := prompt_set_vars EmptyString;
            export_vars := Dict.literal
              [("PATH", VStr (PyStr.join (pathsep_join self) new_path));
               ("CONDA_SHLVL", VInt new_conda_shlvl)];
            deactivate_scripts := deactivate_scripts;
            activate_scripts := [] |}
    else
      (* here [old_conda_shlvl > 1], as the source asserts;
         [_default_env(None)] ends in [abspath(None)] *)
      match environ !! ("CONDA_PREFIX_" +:+ pretty new_conda_shlvl) with
      | None => Raise TypeError
      | Some new_prefix =>
          let conda_default_env := _default_env new_prefix in
          let conda_prompt_modifier :=
            _prompt_modifier new_prefix conda_default_env in
          let old_prefix_stacked := bool_decide
            (is_Some (environ !! ("CONDA_STACKED_" +:+ pretty old_conda_shlvl))) in
          '(new_path, unset_vars) ←
            (if old_prefix_stacked then
               p ← _remove_prefix_from_path old_conda_prefix None;
               Ok (p, ["CONDA_PREFIX_" +:+ pretty new_conda_shlvl;
                       "CONDA_STACKED_" +:+ pretty old_conda_shlvl])
             else
               p ← _replace_prefix_in_path old_conda_prefix (Some new_prefix) None;
               Ok (p, ["CONDA_PREFIX_" +:+ pretty new_conda_shlvl]));
          activate_scripts ← _get_activate_scripts new_prefix;
          Ok {| unset_vars := unset_vars;
                set_vars := prompt_set_vars conda_prompt_modifier;
                export_vars := Dict.literal
                  [("PATH", VStr (PyStr.join (pathsep_join self) new_path));
                   ("CONDA_SHLVL", VInt new_conda_shlvl);
                   ("CONDA_PREFIX", VStr new_prefix);
                   ("CONDA_DEFAULT_ENV", VStr conda_default_env);
                   ("CONDA_PROMPT_MODIFIER", VStr conda_prompt_modifier)];
                deactivate_scripts := deactivate_scripts;
                activate_scripts := activate_scripts |}
      end.

Definition build_reactivate : result cmds_dict :=
  let conda_prefix := environ !! "CONDA_PREFIX" in
  conda_shlvl ← conda_shlvl;
  if py_not conda_prefix || (conda_shlvl <? 1)%Z then Ok no_op
  else
    let prefix := default EmptyString conda_prefix in
    let conda_default_env :=
      default (_default_env prefix) (environ !! "CONDA_DEFAULT_ENV") in
    new_path ← _replace_prefix_in_path conda_prefix conda_prefix None;
    let conda_prompt_modifier := _prompt_modifier prefix conda_default_env in
    let set_vars := prompt_set_vars conda_prompt_modifier in
    let export_vars := Dict.literal
      [("PATH", VStr (PyStr.join (pathsep_join self) new_path));
       ("CONDA_SHLVL", VInt conda_shlvl);
       ("CONDA_PROMPT_MODIFIER", VStr (_prompt_modifier prefix conda_default_env))] in
    deactivate_scripts ← _get_deactivate_scripts prefix;
    activate_scripts ← _get_activate_scripts prefix;
    Ok {| unset_vars := [];
          set_vars := set_vars;
          export_vars := export_vars;
          deactivate_scripts := deactivate_scripts;
          activate_scripts := activate_scripts |}.

(** Lines 190 to 198 of [_build_activate_stack]: the prefix a target
    stands for. *)
Definition resolve_prefix (env_name_or_prefix : string) : result string :=
  if PyStr.has_path_separator env_name_or_prefix then
    let prefix := expand h env_name_or_prefix in
    if negb (isdir h (join h prefix ["conda-meta"]))
    then Raise (EnvironmentLocationNotFound prefix)
    else Ok prefix
  else if bool_decide (env_name_or_prefix = ROOT_ENV_NAME h
                       ∨ env_name_or_prefix = "root")
  then Ok (root_prefix h)
  else locate_prefix_by_name h env_name_or_prefix.

Definition _build_activate_stack (env_name_or_prefix : string) (stack : bool)
  : result cmds_dict :=
  prefix ← resolve_prefix env_name_or_prefix;
  old_conda_shlvl ← conda_shlvl;
  let new_conda_shlvl := (old_conda_shlvl + 1)%Z in
  let old_conda_prefix := environ !! "CONDA_PREFIX" in
  if bool_decide (old_conda_prefix = Some prefix) && (0 <? old_conda_shlvl)%Z
  then build_reactivate
  else
    activate_scripts ← _get_activate_scripts prefix;
    let conda_default_env := _default_env prefix in
    let conda_prompt_modifier := _prompt_modifier prefix conda_default_env in
    let finish (export_vars : dict) (deactivate_scripts : list string) :=
      {| unset_vars := [];
         set_vars := prompt_set_vars conda_prompt_modifier;
         export_vars := _build_activate_shell_custom self export_vars;
         deactivate_scripts := deactivate_scripts;
         activate_scripts := activate_scripts |} in
    if (old_conda_shlvl =? 0)%Z then
      new_path ← _add_prefix_to_path prefix None;
      conda_python_exe ← path_conversion_str (sys_executable h);
      conda_exe ← path_conversion_str (conda_exe h);
      Ok (finish (Dict.literal
        [("CONDA_PYTHON_EXE", VStr conda_python_exe);
         ("CONDA_EXE", VStr conda_exe);
         ("PATH", VStr (PyStr.join (pathsep_join self) new_path));
         ("CONDA_PREFIX", VStr prefix);
         ("CONDA_SHLVL", VInt new_conda_shlvl);
         ("CONDA_DEFAULT_ENV", VStr conda_default_env);
         ("CONDA_PROMPT_MODIFIER", VStr conda_prompt_modifier)]) [])
    else if bool_decide
              (environ !! ("CONDA_PREFIX_" +:+ pretty (old_conda_shlvl - 1)%Z)
               = Some prefix)
    then build_deactivate
    else if stack then
      new_path ← _add_prefix_to_path prefix None;
      Ok (finish (Dict.literal
        [("PATH", VStr (PyStr.join (pathsep_join self) new_path));
         ("CONDA_PREFIX", VStr prefix);
         ("CONDA_PREFIX_" +:+ pretty old_conda_shlvl, value_of_opt old_conda_prefix);
         ("CONDA_SHLVL", VInt new_conda_shlvl);
         ("CONDA_DEFAULT_ENV", VStr conda_default_env);
         ("CONDA_PROMPT_MODIFIER", VStr conda_prompt_modifier);
         ("CONDA_STACKED_" +:+ pretty new_conda_shlvl, VStr "true")]) [])
    else
      new_path ← _replace_prefix_in_path old_conda_prefix (Some prefix) None;
      let export_vars := Dict.literal
        [("PATH", VStr (PyStr.join (pathsep_join self) new_path));
         ("CONDA_PREFIX", VStr prefix);
         ("CONDA_PREFIX_" +:+ pretty old_conda_shlvl, value_of_opt old_conda_prefix);
         ("CONDA_SHLVL", VInt new_conda_shlvl);
         ("CONDA_DEFAULT_ENV", VStr conda_default_env);
         ("CONDA_PROMPT_MODIFIER", VStr conda_prompt_modifier)] in
      (* [_get_deactivate_scripts(None)] ends in [join(None, ...)] *)
      deactivate_scripts ←
        match old_conda_prefix with
        | None => Raise TypeError
        | Some p => _get_deactivate_scripts p
        end;
      Ok (finish export_vars deactivate_scripts).

Definition build_activate (env_name_or_prefix : string) : result cmds_dict :=
  _build_activate_stack env_name_or_prefix false.

Definition build_stack (env_name_or_prefix : string) : result cmds_dict :=
  _build_activate_stack env_name_or_prefix true.

End activator.

Global Arguments remove_step : simpl never.
Global Arguments _get_path_dirs2 : simpl never.

(** ** The renderer and the front end *)

(** What [_parse_and_set_args] stores in [self]: [stack] and
    [env_name_or_prefix] are set for the command [activate] only. *)
Record parsed_args : Type := {
  command : string;
  stack : option bool;
  env_name_or_prefix : option string;
}.

(** [l.index(x)], [None] standing for the [ValueError]. *)
Fixpoint list_index (x : string) (l : list string) : option nat :=
  match l with
  | [] => None
  | y :: l' => if decide (y = x) then Some 0 else S <$> list_index x l'
  end.

Definition help_flags : list string := ["-h"; "--help"; "/?"].
Definition commands : list string := ["activate"; "deactivate"; "reactivate"; "hook"].

(** The message of an [ArgumentError] is not part of the model. *)
Definition _parse_and_set_args (arguments : option (list string))
  : result parsed_args :=
  match arguments with
  | None => Raise (ArgumentError "command must be given")
  | Some [] => Raise IndexError
  | Some (command :: arguments) =>
      let non_help_args := filter (λ arg, arg ∉ help_flags) arguments in
      let help_requested :=
        negb (length arguments =? length non_help_args) in
      let remainder_args :=
        filter (λ arg, arg ≠ EmptyString ∧ arg ≠ command) non_help_args in
      if PyStr.is_empty command then Raise (ArgumentError "command must be given")
      else if help_requested then
        if decide (command = "activate") then Raise ActivateHelp
        else if decide (command = "deactivate") then Raise DeactivateHelp
        else if decide (command = "hook") then Raise (GenericHelp "hook")
        else if decide (command = "reactivate") then Raise (GenericHelp "reactivate")
        else Raise (KeyError command)
      else if bool_decide (command ∉ commands)
      then Raise (ArgumentError "invalid command")
      else if decide (command = "activate") then
        let '(stack, remainder_args) :=
          match list_index "--stack" remainder_args with
          | None => (false, remainder_args)
          | Some stack_idx => (true, delete stack_idx remainder_args)
          end in
        if 1 <? length remainder_args
        then Raise (ArgumentError "does not accept more than one argument")
        else
          Ok {| command := command;
                stack := Some stack;
                env_name_or_prefix := Some
                  match remainder_args with
                  | [] => "base"
                  | arg :: _ => if PyStr.is_empty arg then "base" else arg
                  end |}
      else
        match remainder_args with
        | _ :: _ => Raise (ArgumentError "does not accept arguments")
        | [] => Ok {| command := command; stack := None;
                      env_name_or_prefix := None |}
        end
  end.

(** What [_finalize] hands back: the text for the standard output, or the
    temporary file it wrote (its suffix and its content). *)
Inductive output : Type :=
| Stdout (text : string)
| TempFile (suffix content : string).

Section front_end.

Variable h : Host.
Variable self : Activator.
Variable environ : gmap string string.

(** The generator [_yield_commands], as the list it yields. The map it
    reads always holds the five keys. *)
Definition _yield_commands (cmds_dict : cmds_dict) : list string :=
  (run_script_tmpl self <$> deactivate_scripts cmds_dict)
  ++ (unset_var_tmpl self <$> sorted (unset_vars cmds_dict))
  ++ ((λ kv, set_var_tmpl self kv.1 (str kv.2))
        <$> sorted_items (set_vars cmds_dict))
  ++ ((λ kv, export_var_tmpl self kv.1 (str kv.2))
        <$> sorted_items (export_vars cmds_dict))
  ++ (run_script_tmpl self <$> activate_scripts cmds_dict).

Definition _finalize (commands : list string) (ext : option string)
  : result output :=
  let text := PyStr.join (command_join self) (commands ++ [EmptyString]) in
  match ext with
  | None => Ok (Stdout text)
  | Some ext =>
      if PyStr.is_empty ext then Raise NotImplementedError
      else Ok (TempFile ext text)
  end.

Definition activate (args : parsed_args) : result output :=
  match stack args, env_name_or_prefix args with
  | Some stack, Some env_name_or_prefix =>
      builder_result ←
        (if stack then build_stack h self environ env_name_or_prefix
         else build_activate h self environ env_name_or_prefix);
      _finalize (_yield_commands builder_result) (tempfile_extension self)
  | _, _ => Raise TypeError
  end.

Definition deactivate : result output :=
  builder_result ← build_deactivate h self environ;
  _finalize (_yield_commands builder_result) (tempfile_extension self).

Definition reactivate : result output :=
  builder_result ← build_reactivate h self environ;
  _finalize (_yield_commands builder_result) (tempfile_extension self).

Definition hook (auto_activate_base_arg : option bool) : result string :=
  preamble ← _hook_preamble self;
  source ←
    match hook_source_path self with
    | None => Raise TypeError
    | Some path => read_file h path
    end;
  let auto :=
    match auto_activate_base_arg with
    | None => auto_activate_base h
    | Some b => b
    end in
  Ok (PyStr.join PyStr.nl
        ([preamble; source]
         ++ if auto then ["conda activate base" +:+ PyStr.nl]
            else [])).

(** [execute]: what is to be written to the standard output. *)
Definition execute (raw_arguments : option (list string)) : result output :=
  args ← _parse_and_set_args raw_arguments;
  if decide (command args = "activate") then activate args
  else if decide (command args = "deactivate") then deactivate
  else if decide (command args = "reactivate") then reactivate
  else Stdout <$> hook None.

End front_end.

(** ** The shells *)

Section shells.

Variable h : Host.

Local Abbreviation dq := PyStr.dq.
Local Abbreviation nl := PyStr.nl.
Local Abbreviation cr := PyStr.cr.

(** [_Activator._update_prompt] and [_build_activate_shell_custom]: the
    methods of the base class do nothing. *)
Definition default_update_prompt
    (environ : gmap string string) (set_vars : dict)
    (conda_prompt_modifier : string) : dict := set_vars.

Definition default_build_activate_shell_custom (export_vars : dict) : dict :=
  export_vars.

(** The body shared by [PosixActivator._update_prompt] (with [quote] set)
    and [CshActivator._update_prompt]: the prompt variable without the
    current modifier, behind the new one. *)
Definition update_prompt_var (var : string) (quote : bool)
    (environ : gmap string string) (set_vars : dict)
    (conda_prompt_modifier : string) : dict :=
  let ps1 := default EmptyString (environ !! var) in
  let ps1 :=
    match environ !! "CONDA_PROMPT_MODIFIER" with
    | Some current_prompt_modifier =>
        if PyStr.is_empty current_prompt_modifier then ps1
        else PyStr.replace current_prompt_modifier EmptyString ps1
    | None => ps1
    end in
  let ps1 :=
    if quote then PyStr.replace "'" ("'" +:+ dq +:+ "'" +:+ dq +:+ "'") ps1
    else ps1 in
  Dict.update var (VStr (conda_prompt_modifier +:+ ps1)) set_vars.

Definition PosixActivator : Activator := {|
  pathsep_join := ":";
  sep := "/";
  path_conversion := NativePathToUnix;
  script_extension := ".sh";
  tempfile_extension := None;
  command_join := nl;
  unset_var_tmpl := λ k, "\unset " +:+ k;
  export_var_tmpl := λ k v, "\export " +:+ k +:+ "='" +:+ v +:+ "'";
  set_var_tmpl := λ k v, k +:+ "='" +:+ v +:+ "'";
  run_script_tmpl := λ script, "\. " +:+ dq +:+ script +:+ dq;
  hook_source_path := Some (join h (CONDA_PACKAGE_ROOT h)
                              ["shell"; "etc"; "profile.d"; "conda.sh"]);
  _update_prompt := update_prompt_var "PS1" true;
  _build_activate_shell_custom := default_build_activate_shell_custom;
  _hook_preamble :=
    if on_win h then
      Ok ("export CONDA_EXE=" +:+ dq +:+ "$(cygpath '" +:+ conda_exe h +:+ "')"
          +:+ dq +:+ nl +:+ "export CONDA_BAT=" +:+ dq
          +:+ join h (conda_prefix h) ["condacmd"; "conda.bat"] +:+ dq)
    else Ok ("export CONDA_EXE=" +:+ dq +:+ conda_exe h +:+ dq);
|}.

Definition CshActivator : Activator := {|
  pathsep_join := ":";
  sep := "/";
  path_conversion := NativePathToUnix;
  script_extension := ".csh";
  tempfile_extension := None;
  command_join := ";" +:+ nl;
  unset_var_tmpl := λ k, "unsetenv " +:+ k;
  export_var_tmpl := λ k v, "setenv " +:+ k +:+ " " +:+ dq +:+ v +:+ dq;
  set_var_tmpl := λ k v, "set " +:+ k +:+ "='" +:+ v +:+ "'";
  run_script_tmpl := λ script, "source " +:+ dq +:+ script +:+ dq;
  hook_source_path := Some (join h (CONDA_PACKAGE_ROOT h)
                              ["shell"; "etc"; "profile.d"; "conda.csh"]);
  _update_prompt := update_prompt_var "prompt" false;
  _build_activate_shell_custom := default_build_activate_shell_custom;
  _hook_preamble :=
    if on_win h then
      Ok ("setenv CONDA_EXE `cygpath " +:+ conda_exe h +:+ "`" +:+ nl
          +:+ "setenv _CONDA_ROOT `cygpath " +:+ conda_prefix h +:+ "`" +:+ nl
          +:+ "setenv _CONDA_EXE `cygpath " +:+ conda_exe h +:+ "`")
    else
      Ok ("setenv CONDA_EXE " +:+ dq +:+ conda_exe h +:+ dq +:+ nl
          +:+ "setenv _CONDA_ROOT " +:+ dq +:+ conda_prefix h +:+ dq +:+ nl
          +:+ "setenv _CONDA_EXE " +:+ dq +:+ conda_exe h +:+ dq);
|}.

Definition XonshActivator : Activator := {|
  pathsep_join := ":";
  sep := "/";
  path_conversion := NativePathToUnix;
  script_extension := ".xsh";
  tempfile_extension := Some ".xsh";
  command_join := nl;
  unset_var_tmpl := λ k, "del $" +:+ k;
  export_var_tmpl := λ k v, "$" +:+ k +:+ " = '" +:+ v +:+ "'";
  set_var_tmpl := λ k v, "$" +:+ k +:+ " = '" +:+ v +:+ "'";
  run_script_tmpl := λ script, "source " +:+ dq +:+ script +:+ dq;
  hook_source_path := Some (join h (CONDA_PACKAGE_ROOT h) ["shell"; "conda.xsh"]);
  _update_prompt := default_update_prompt;
  _build_activate_shell_custom := default_build_activate_shell_custom;
  _hook_preamble := Ok ("CONDA_EXE = " +:+ dq +:+ conda_exe h +:+ dq);
|}.

Definition CmdExeActivator : Activator := {|
  pathsep_join := ";";
  sep := "\";
  path_conversion := PathIdentity;
  script_extension := ".bat";
  tempfile_extension := Some ".bat";
  command_join := if on_win h then cr +:+ nl else nl;
  unset_var_tmpl := λ k, "@SET " +:+ k +:+ "=";
  export_var_tmpl := λ k v, "@SET " +:+ dq +:+ k +:+ "=" +:+ v +:+ dq;
  set_var_tmpl := λ k v, "@SET " +:+ dq +:+ k +:+ "=" +:+ v +:+ dq;
  run_script_tmpl := λ script, "@CALL " +:+ dq +:+ script +:+ dq;
  hook_source_path := None;
  _update_prompt := default_update_prompt;
  _build_activate_shell_custom := λ export_vars,
    if on_win h then Dict.update "PYTHONIOENCODING" (VInt (GetACP h)) export_vars
    else export_vars;
  _hook_preamble := Raise NotImplementedError;
|}.

Definition FishActivator : Activator := {|
  pathsep_join := dq +:+ " " +:+ dq;
  sep := "/";
  path_conversion := NativePathToUnix;
  script_extension := ".fish";
  tempfile_extension := None;
  command_join := ";" +:+ nl;
  unset_var_tmpl := λ k, "set -e " +:+ k;
  export_var_tmpl := λ k v, "set -gx " +:+ k +:+ " " +:+ dq +:+ v +:+ dq;
  set_var_tmpl := λ k v, "set -g " +:+ k +:+ " " +:+ dq +:+ v +:+ dq;
  run_script_tmpl := λ script, "source " +:+ dq +:+ script +:+ dq;
  hook_source_path := Some (join h (CONDA_PACKAGE_ROOT h)
                              ["shell"; "etc"; "fish"; "conf.d"; "conda.fish"]);
  _update_prompt := default_update_prompt;
  _build_activate_shell_custom := default_build_activate_shell_custom;
  _hook_preamble :=
    if on_win h then
      Ok ("set -gx CONDA_EXE (cygpath " +:+ dq +:+ conda_exe h +:+ dq +:+ ")" +:+ nl
          +:+ "set _CONDA_ROOT (cygpath " +:+ dq +:+ conda_prefix h +:+ dq +:+ ")" +:+ nl
          +:+ "set _CONDA_EXE (cygpath " +:+ dq +:+ conda_exe h +:+ dq +:+ ")")
    else
      Ok ("set -gx CONDA_EXE " +:+ dq +:+ conda_exe h +:+ dq +:+ nl
          +:+ "set _CONDA_ROOT " +:+ dq +:+ conda_prefix h +:+ dq +:+ nl
          +:+ "set _CONDA_EXE " +:+ dq +:+ conda_exe h +:+ dq);
|}.

Definition PowershellActivator : Activator := {|
  pathsep_join := ";";
  sep := "\";
  path_conversion := PathIdentity;
  script_extension := ".ps1";
  tempfile_extension := None;
  command_join := nl;
  unset_var_tmpl := λ k, "Remove-Variable " +:+ k;
  export_var_tmpl := λ k v, "$env:" +:+ k +:+ " = " +:+ dq +:+ v +:+ dq;
  set_var_tmpl := λ k v, "$env:" +:+ k +:+ " = " +:+ dq +:+ v +:+ dq;
  run_script_tmpl := λ script, ". " +:+ dq +:+ script +:+ dq;
  hook_source_path := None;
  _update_prompt := default_update_prompt;
  _build_activate_shell_custom := default_build_activate_shell_custom;
  _hook_preamble := Raise NotImplementedError;
|}.

Definition activator_map (shell : string) : option Activator :=
  if bool_decide (shell ∈ ["posix"; "ash"; "bash"; "dash"; "zsh"])
  then Some PosixActivator
  else if bool_decide (shell ∈ ["csh"; "tcsh"]) then Some CshActivator
  else if decide (shell = "xonsh") then Some XonshActivator
  else if decide (shell = "cmd.exe") then Some CmdExeActivator
  else if decide (shell = "fish") then Some FishActivator
  else if decide (shell = "powershell") then Some PowershellActivator
  else None.

End shells.

(** * The vocabulary of the properties *)

Section vocabulary.

Variable h : Host.
Variable self : Activator.
Variable environ : gmap string string.

Implicit Types (E : string) (l pre rest : list string).

(** The first and the last directory [_replace_prefix_in_path] looks for. *)
Definition first_dir E : string := hd EmptyString (_get_path_dirs2 h self E).
Definition last_dir E : string := List.last (_get_path_dirs2 h self E) EmptyString.

(** No directory of [E] before its last one compares equal to the last. *)
Definition last_dir_fresh E : Prop :=
  index_of_path h (_get_path_dirs2 h self E) (last_dir E)
  = Some (length (_get_path_dirs2 h self E) - 1).

(** A list the shell's path conversion leaves as it is. *)
Definition shell_form l : Prop := path_conversion_seq h self l = Ok l.

(** The prefix after [self.path_conversion]. *)
Definition converted E : string :=
  match path_conversion_str h self E with
  | Ok E' => E'
  | Raise _ => E
  end.

(** What the round trip asks of a Windows host, where the shell may
    convert paths and an environment has six directories: the conversion
    of [E] succeeds, it leaves [P] and the extended list as they are, and
    the last directory of [E] is not an alias of an earlier one. *)
Definition windows_ready E (P : list string) : Prop :=
  is_Ok (path_conversion_str h self E)
  ∧ shell_form P
  ∧ shell_form (_get_path_dirs2 h self (converted E) ++ P)
  ∧ last_dir_fresh (converted E).

(** The same conditions for a replacement of [A] by [B] in a list that
    starts with the directories of [A]. *)
Definition windows_ready_replace (A B : string) rest : Prop :=
  is_Ok (path_conversion_str h self A)
  ∧ is_Ok (path_conversion_str h self B)
  ∧ shell_form (_get_path_dirs2 h self (converted A) ++ rest)
  ∧ last_dir_fresh (converted A).

(** The removal as the specification words it: without the first
    directory nothing is deleted and index 0 is the insertion point; with
    the first directory at index [i], either the assertion fails or the
    last directory is met at some index [j] with [i ≤ j] and the entries
    from [i] to [j] are deleted. *)
Definition removal_as_specified E (path_list : list string) : Prop :=
  match index_of_path h path_list (first_dir E) with
  | None => remove_step h self (Some E) path_list = Ok (0, path_list)
  | Some i =>
      remove_step h self (Some E) path_list = Raise AssertionError
      ∨ ∃ j, index_of_path h path_list (last_dir E) = Some j ∧ i ≤ j
             ∧ remove_step h self (Some E) path_list
               = Ok (i, take i path_list ++ drop (S j) path_list)
  end.

(** What idempotence asks of a Windows host: the list returned is in the
    shell's form, the last directory of [E] is not an alias of an earlier
    one and, in the path list read, it is not met before the first one. *)
Definition windows_ready_reactivate E : Prop :=
  ∀ path_list R,
    starting_path_list h self environ None = Ok path_list →
    _replace_prefix_in_path h self environ (Some E) (Some E) None = Ok R →
    shell_form R
    ∧ last_dir_fresh (converted E)
    ∧ ∀ i j, index_of_path h path_list (first_dir (converted E)) = Some i →
             index_of_path h path_list (last_dir (converted E)) = Some j → i ≤ j.

(** The path computation of [build_reactivate], run on its own result. *)
Definition reactivate_path_idempotent E : Prop :=
  ∀ R, _replace_prefix_in_path h self environ (Some E) (Some E) None = Ok R →
       _replace_prefix_in_path h self environ (Some E) (Some E) (Some R) = Ok R.

(** The level is 0 as far as [CONDA_SHLVL] tells: the variable is absent,
    blank (empty or white space only) or, white space aside, the text [0]. *)
Definition level_zero : Prop :=
  match environ !! "CONDA_SHLVL" with
  | None => True
  | Some s => PyStr.blank s = true ∨ PyStr.strip s = "0"
  end.

(** [CONDA_SHLVL] is absent, empty or made of white space only. *)
Definition shlvl_blank : Prop :=
  match environ !! "CONDA_SHLVL" with
  | None => True
  | Some s => PyStr.blank s = true
  end.

(** [CONDA_PREFIX] is absent or empty. *)
Definition no_prefix : Prop :=
  environ !! "CONDA_PREFIX" = None ∨ environ !! "CONDA_PREFIX" = Some EmptyString.

(** [r] is not the failure [EnvironmentLocationNotFound]. *)
Definition not_location_error {A} (r : result A) : Prop :=
  ∀ p, r ≠ Raise (EnvironmentLocationNotFound p).

(** The failure with one of the two environment-not-found errors. *)
Definition not_found_error {A} (r : result A) : Prop :=
  ∃ x, r = Raise (EnvironmentLocationNotFound x)
       ∨ r = Raise (EnvironmentNameNotFound x).

(** The marker directory of [prefix] decides whether [r] is that failure. *)
Definition marker_decides {A} (prefix : string) (r : result A) : Prop :=
  not_found_error r ↔ isdir h (join h prefix ["conda-meta"]) = false.

End vocabulary.

(** For the command [activate] and arguments without a help flag: the
    list [remainder_args] when [_parse_and_set_args] checks its length,
    that is the arguments that are neither empty nor the word [activate],
    less the first [--stack]. *)
Definition positional_args (arguments : list string) : list string :=
  let remainder_args :=
    filter (λ arg, arg ≠ EmptyString ∧ arg ≠ "activate") arguments in
  match list_index "--stack" remainder_args with
  | None => remainder_args
  | Some stack_idx => delete stack_idx remainder_args
  end.

(** ** Two sample hosts *)

(** A small file system: the directories and the files that exist. *)
Record files : Type := {
  directories : list string;
  regular_files : list string;
}.

(** [s.endswith(suffix)] *)
Definition endswith (suffix s : string) : bool :=
  PyStr.startswith (String.rev suffix) (String.rev s).

(** The text after the last separator [c] ([acc] is the text read since
    the last one, reversed). *)
Fixpoint after_last (c : ascii) (acc : string) (s : string) : string :=
  match s with
  | EmptyString => String.rev acc
  | String d s' =>
      if bool_decide (d = c) then after_last c EmptyString s'
      else after_last c (String d acc) s'
  end.

(** The text before the last separator [c]. *)
Fixpoint before_last (c : ascii) (s : string) : string :=
  match s with
  | EmptyString => EmptyString
  | String d s' =>
      if bool_decide (c ∈ list_ascii_of_string s') then String d (before_last c s')
      else EmptyString
  end.

(** [join(a, *p)] for components that are relative. *)
Definition sample_join (c : ascii) (a : string) (p : list string) : string :=
  foldl (λ path b,
           if PyStr.is_empty path || endswith (String c EmptyString) path
           then path +:+ b
           else path +:+ String c EmptyString +:+ b) a p.

(** [glob(pattern)] for a pattern [dir/*ext]: the files of [dir] whose
    name ends with [ext]. *)
Definition sample_glob (c : ascii) (fs : files) (pattern : string) : list string :=
  let dir := before_last c pattern in
  let ext := after_last "*" EmptyString pattern in
  filter (λ f, before_last c f = dir ∧ endswith ext f = true) (regular_files fs).

Definition ascii_lower (c : ascii) : ascii :=
  let n := nat_of_ascii c in
  if (65 <=? n) && (n <=? 90) then ascii_of_nat (n + 32) else c.

(** [ntpath.normcase]: lower case, and backslashes for slashes. *)
Fixpoint ntpath_normcase (s : string) : string :=
  match s with
  | EmptyString => EmptyString
  | String c s' =>
      String (if bool_decide (c = "/"%char) then "\"%char else ascii_lower c)
             (ntpath_normcase s')
  end.

(** Modelled from the spec: [locate_prefix_by_name] of [conda.base.context]
    is not part of the sources at hand; the sample hosts look the name up
    under the [envs] directory of the root prefix. *)
Definition sample_locate (c : ascii) (fs : files) (root name : string) : result string :=
  let prefix := sample_join c root ["envs"; name] in
  if bool_decide (prefix ∈ directories fs) then Ok prefix
  else Raise (EnvironmentNameNotFound name).

(** A host whose paths are absolute and normalised already, so that
    [abspath], [expanduser] and [expandvars] change nothing, and that has
    no [cygpath] program. *)
Definition sample_host (win : bool) (root : string) (fs : files) : Host :=
  let c : ascii := if win then "\"%char else "/"%char in
  {| on_win := win;
     os_pathsep := if win then ";"%char else ":"%char;
     sys_prefix := root;
     sys_executable := sample_join c root [if win then "python.exe" else "bin/python"];
     abspath := λ p, p;
     basename := after_last c EmptyString;
     dirname := before_last c;
     expanduser := λ p, p;
     expandvars := λ p, p;
     isdir := λ p, bool_decide (p ∈ directories fs);
     join := sample_join c;
     normcase := if win then ntpath_normcase else (λ p, p);
     glob := sample_glob c fs;
     cygpath := λ _, None;
     GetACP := 1252%Z;
     read_file := λ _, Raise IOError;
     CONDA_PACKAGE_ROOT := sample_join c root ["lib"; "conda"];
     ROOT_ENV_NAME := "base";
     root_prefix := root;
     conda_prefix := root;
     conda_exe := sample_join c root [if win then "Scripts\conda.exe" else "bin/conda"];
     changeps1 := true;
     auto_activate_base := true;
     env_prompt := λ default_env prefix name, "(" +:+ default_env +:+ ") ";
     locate_prefix_by_name := sample_locate c fs root |}.

Definition posix_files : files :=
  {| directories := ["/opt/conda"; "/opt/conda/conda-meta"; "/opt/conda/envs";
                     "/opt/conda/envs/A"; "/opt/conda/envs/A/conda-meta";
                     "/opt/conda/envs/B"; "/opt/conda/envs/B/conda-meta"; "/data"];
     regular_files := ["/opt/conda/envs/A/etc/conda/activate.d/10-a.sh";
                       "/opt/conda/envs/A/etc/conda/activate.d/20-b.sh";
                       "/opt/conda/envs/A/etc/conda/activate.d/notes.txt";
                       "/opt/conda/envs/A/etc/conda/deactivate.d/10-a.sh";
                       "/opt/conda/envs/A/etc/conda/deactivate.d/20-b.sh"] |}.

Definition posix_host : Host := sample_host false "/opt/conda" posix_files.

Definition win_files : files :=
  {| directories := ["C:\conda"; "C:\conda\conda-meta"; "C:\E"; "C:\E\conda-meta"];
     regular_files := ["C:\E\etc\conda\activate.d\a.bat"] |}.

Definition win_host : Host := sample_host true "C:\conda" win_files.

(** A host whose root prefix has lost its [conda-meta] directory. *)
Definition bare_host : Host :=
  sample_host false "/opt/conda"
    {| directories := ["/opt/conda"]; regular_files := [] |}.

(** The shells used on the sample hosts. *)
Definition cmd : Activator := CmdExeActivator win_host.
Definition sh : Activator := PosixActivator posix_host.

(** Level 1 on a POSIX host, in the environment [A]. *)
Definition in_A : gmap string string :=
  <["PATH" := "/opt/conda/envs/A/bin:/usr/bin:/bin"]>
  (<["CONDA_PREFIX" := "/opt/conda/envs/A"]>
  (<["CONDA_SHLVL" := "1"]> ∅)).

(** Level 1 on a Windows host, in the environment [C:\E], with a search
    path in which the [bin] directory of the environment was put first. *)
Definition tampered : gmap string string :=
  <["PATH" := "C:\E\bin;C:\E"]>
  (<["CONDA_PREFIX" := "C:\E"]>
  (<["CONDA_SHLVL" := "1"]> ∅)).

(** The list a first reactivation computes from the tampered path. *)
Definition tampered_once : list string :=
  ["C:\E\bin"; "C:\E"; "C:\E\Library\mingw-w64\bin"; "C:\E\Library\usr\bin";
   "C:\E\Library\bin"; "C:\E\Scripts"; "C:\E\bin"; "C:\E"].

(** The same host with the directories of [C:\E] in their order. *)
Definition in_E : gmap string string :=
  <["PATH" := "C:\Tools;C:\E;C:\E\Library\mingw-w64\bin;C:\E\Library\usr\bin"
              +:+ ";C:\E\Library\bin;C:\E\Scripts;C:\E\bin;C:\Windows"]>
  (<["CONDA_PREFIX" := "C:\E"]>
  (<["CONDA_SHLVL" := "1"]> ∅)).

(** * Further vocabulary *)

(** The one directory an environment has on a POSIX host. *)
Definition bin_dir (self : Activator) (E : string) : string :=
  PyStr.join (sep self) [E; "bin"].

(** Does the character [c] occur in [s]? *)
Fixpoint has_char (c : ascii) (s : string) : bool :=
  match s with
  | EmptyString => false
  | String d s' => bool_decide (d = c) || has_char c s'
  end.

(** A text made of decimal digits. *)
Fixpoint all_digits (s : string) : bool :=
  match s with
  | EmptyString => true
  | String c s' => bool_decide (is_Some (PyStr.digit_of c)) && all_digits s'
  end.

(** The shell's [_build_activate_shell_custom] leaves every exported name
    but [PYTHONIOENCODING] as it is. *)
Definition custom_keeps (self : Activator) : Prop :=
  ∀ (d : dict) (k : string),
    k ≠ "PYTHONIOENCODING" →
    Dict.get k (_build_activate_shell_custom self d) = Dict.get k d.

(** The environment [environ'] holds the name [k] as the instruction set
    [c] exports it. *)
Definition exported_to (c : cmds_dict) (environ' : gmap string string)
    (k : string) : Prop :=
  environ' !! k = str <$> Dict.get k (export_vars c).

(** The names of the bookkeeping variables of a level. *)
Definition CONDA_PREFIX_ (level : Z) : string := "CONDA_PREFIX_" +:+ pretty level.
Definition CONDA_STACKED_ (level : Z) : string := "CONDA_STACKED_" +:+ pretty level.

(** The conversion of paths is the identity: the host is not Windows, or
    the shell chose [path_identity]. *)
Definition converts_nothing (h : Host) (self : Activator) : Prop :=
  on_win h = false ∨ path_conversion self = PathIdentity.

(** The commands, each followed by the joiner of the shell. *)
Definition each_terminated (self : Activator) (commands : list string)
  : string :=
  foldr (λ c text, c +:+ command_join self +:+ text) EmptyString commands.

(** The arguments that [_parse_and_set_args] keeps for a command other
    than [activate]: neither empty nor the command itself. *)
Definition stray (command arg : string) : Prop :=
  arg ≠ EmptyString ∧ arg ≠ command.

(** Does the text [old] occur in [s]? *)
Fixpoint occurs (old s : string) : bool :=
  PyStr.startswith old s
  || match s with
     | EmptyString => false
     | String _ s' => occurs old s'
     end.

(** ** conda/core/initialize.py: the plan runner *)

Module Plan.

(** The constants of the class [Result]. *)
Definition NEEDS_SUDO : string := "needs sudo".
Definition MODIFIED : string := "modified".
Definition NO_CHANGE : string := "no change".

(** How the call of an operation ends: it returns a value, it raises an
    [EnvironmentError] (an [IOError] or [OSError] is one), or it raises an
    exception [e] of another class. *)
Inductive outcome : Type :=
| Returned (value : string)
| EnvironmentError
| Raised (e : exn).

Section runner.

(** The positional and keyword arguments of a step, and the state of the
    machine the operations work on (files, registry). *)
Variable Args : Type.
Variable World : Type.

(** A step of a plan: the keys [function] and [result] of the
    dictionary, and its [args] and [kwargs] taken together. *)
Record step : Type := {
  step_function : string;
  step_args : Args;
  step_result : option string;
}.

(** [globals()]: the operations of the module, by name. *)
Variable operations : string → option (Args → World → outcome * World).

(** [previous_result in (Result.MODIFIED, Result.NO_CHANGE)] *)
Definition completed (s : step) : bool :=
  match step_result s with
  | Some r => bool_decide (r = MODIFIED) || bool_decide (r = NO_CHANGE)
  | None => false
  end.

Definition set_result (s : step) (r : string) : step :=
  {| step_function := step_function s; step_args := step_args s;
     step_result := Some r |}.

(** [run_plan(plan)]: the plan as the loop leaves it, the state of the
    machine, and the exception that ended the loop, if any. *)
Fixpoint run_plan (plan : list step) (w : World)
  : list step * World * option exn :=
  match plan with
  | [] => ([], w, None)
  | s :: plan' =>
      if completed s then
        let '(ran, w', e) := run_plan plan' w in (s :: ran, w', e)
      else
        match operations (step_function s) with
        | None => (s :: plan', w, Some (KeyError (step_function s)))
        | Some operation =>
            match operation (step_args s) w with
            | (Returned r, w') =>
                let '(ran, w'', e) := run_plan plan' w' in
                (set_result s r :: ran, w'', e)
            | (EnvironmentError, w') =>
                let '(ran, w'', e) := run_plan plan' w' in
                (set_result s NEEDS_SUDO :: ran, w'', e)
            | (Raised e, w') => (s :: plan', w', Some e)
            end
        end
  end.

End runner.

Global Arguments step_function {Args}.
Global Arguments step_args {Args}.
Global Arguments step_result {Args}.
Global Arguments completed {Args}.
Global Arguments set_result {Args}.
Global Arguments run_plan {Args World}.

End Plan.

(** ** Further samples *)

(** Level 0 on the POSIX host. *)
Definition at_zero : gmap string string := <["PATH" := "/usr/bin:/bin"]> ∅.

(** Level 2 on the POSIX host: the environment [B] stacked on [A], and [B]
    put in the place of [A]. *)
Definition B_on_A : gmap string string :=
  <["PATH" := "/opt/conda/envs/B/bin:/opt/conda/envs/A/bin:/usr/bin:/bin"]>
  (<["CONDA_PREFIX" := "/opt/conda/envs/B"]>
  (<["CONDA_SHLVL" := "2"]>
  (<["CONDA_PREFIX_1" := "/opt/conda/envs/A"]>
  (<["CONDA_STACKED_2" := "true"]> ∅)))).


(** The POSIX host with [changeps1] switched off. *)
Definition quiet_host : Host :=
  {| on_win := on_win posix_host;
     os_pathsep := os_pathsep posix_host;
     sys_prefix := sys_prefix posix_host;
     sys_executable := sys_executable posix_host;
     abspath := abspath posix_host;
     basename := basename posix_host;
     dirname := dirname posix_host;
     expanduser := expanduser posix_host;
     expandvars := expandvars posix_host;
     isdir := isdir posix_host;
     join := join posix_host;
     normcase := normcase posix_host;
     glob := glob posix_host;
     cygpath := cygpath posix_host;
     GetACP := GetACP posix_host;
     read_file := read_file posix_host;
     CONDA_PACKAGE_ROOT := CONDA_PACKAGE_ROOT posix_host;
     ROOT_ENV_NAME := ROOT_ENV_NAME posix_host;
     root_prefix := root_prefix posix_host;
     conda_prefix := conda_prefix posix_host;
     conda_exe := conda_exe posix_host;
     changeps1 := false;
     auto_activate_base := auto_activate_base posix_host;
     env_prompt := env_prompt posix_host;
     locate_prefix_by_name := locate_prefix_by_name posix_host |}.

(** A prompt that shows the environment [A]. *)
Definition prompt_A : gmap string string :=
  <["PS1" := "(A) $ "]> (<["CONDA_PROMPT_MODIFIER" := "(A) "]> ∅).

(** Two operations on a machine that counts the files written: the first
    writes a file, the second is refused by the system. *)
Definition sample_operations (name : string)
  : option (unit → nat → Plan.outcome * nat) :=
  if decide (name = "init_sh_user")
  then Some (λ _ written, (Plan.Returned Plan.MODIFIED, S written))
  else if decide (name = "init_sh_system")
  then Some (λ _ written, (Plan.EnvironmentError, written))
  else None.

Definition fresh_plan : list (Plan.step unit) :=
  [ {| Plan.step_function := "init_sh_user"; Plan.step_args := tt;
       Plan.step_result := None |};
    {| Plan.step_function := "init_sh_system"; Plan.step_args := tt;
       Plan.step_result := None |} ].

Definition done_plan : list (Plan.step unit) :=
  [ {| Plan.step_function := "init_sh_user"; Plan.step_args := tt;
       Plan.step_result := Some Plan.MODIFIED |};
    {| Plan.step_function := "removed_operation"; Plan.step_args := tt;
       Plan.step_result := Some Plan.NO_CHANGE |} ].

(** * Properties *)

(** ** The result monad *)

Lemma bind_Ok {A B} (f : A → result B) (a : A) : (Ok a ≫= f) = f a.
Proof. reflexivity. Qed.

Lemma bind_Ok_inv {A B} (f : A → result B) (m : result A) (b : B) :
  (m ≫= f) = Ok b → ∃ a, m = Ok a ∧ f a = Ok b.
Proof. destruct m as [a|e]; [eauto | discriminate]. Qed.

Lemma fmap_Ok_inv {A B} (f : A → B) (m : result A) (b : B) :
  f <$> m = Ok b → ∃ a, m = Ok a ∧ b = f a.
Proof. destruct m as [a|e]; intros [= <-]; eauto. Qed.

(** ** The search-path editor *)

Section editor_facts.

Variable h : Host.
Variable self : Activator.
Variable environ : gmap string string.

Implicit Types (E : string) (l pre rest : list string).

Lemma paths_equal_refl p : paths_equal h p p = true.
Proof. unfold paths_equal. destruct (on_win h); by rewrite bool_decide_eq_true. Qed.

Lemma dirs2_cons E : ∃ tl, _get_path_dirs2 h self E = first_dir h self E :: tl.
Proof.
  unfold first_dir, _get_path_dirs2. destruct (on_win h); eexists; reflexivity.
Qed.

Lemma dirs2_posix E :
  on_win h = false →
  _get_path_dirs2 h self E = [first_dir h self E]
  ∧ last_dir h self E = first_dir h self E.
Proof.
  intros Hw. unfold last_dir, first_dir, _get_path_dirs2. rewrite Hw. done.
Qed.

Lemma dirs2_length E : 0 < length (_get_path_dirs2 h self E).
Proof. destruct (dirs2_cons E) as [tl ->]. simpl. lia. Qed.

Lemma last_dir_fresh_posix E : on_win h = false → last_dir_fresh h self E.
Proof.
  intros Hw. unfold last_dir_fresh.
  destruct (dirs2_posix E Hw) as [-> ->]. simpl.
  by rewrite paths_equal_refl.
Qed.

Lemma index_of_path_lt l t i : index_of_path h l t = Some i → i < length l.
Proof.
  revert i. induction l as [|x l IH]; intros i; simpl; [done|].
  destruct (paths_equal h x t).
  - intros [= <-]. lia.
  - destruct (index_of_path h l t) as [k|]; simpl; [|done].
    intros [= <-]. specialize (IH k eq_refl). lia.
Qed.

Lemma index_of_path_app l1 l2 t :
  index_of_path h (l1 ++ l2) t =
  match index_of_path h l1 t with
  | Some i => Some i
  | None => (λ j, length l1 + j) <$> index_of_path h l2 t
  end.
Proof.
  induction l1 as [|x l1 IH]; simpl.
  - by destruct (index_of_path h l2 t).
  - destruct (paths_equal h x t); [done|]. rewrite IH.
    destruct (index_of_path h l1 t); [done|].
    by destruct (index_of_path h l2 t).
Qed.

(** The entry found is equal to the path looked for, and no earlier entry is. *)
Lemma index_of_path_Some l t i :
  index_of_path h l t = Some i →
  (∃ x, l !! i = Some x ∧ paths_equal h x t = true)
  ∧ ∀ k y, k < i → l !! k = Some y → paths_equal h y t = false.
Proof.
  revert i. induction l as [|x l IH]; intros i; simpl; [done|].
  destruct (paths_equal h x t) eqn:Hx.
  - intros [= <-]. split; [eauto|]. intros; lia.
  - destruct (index_of_path h l t) as [k|]; simpl; [|done].
    intros [= <-]. destruct (IH k eq_refl) as [[y [Hy Hy']] Hlt].
    split; [exists y; done|].
    intros [|k'] z Hk' Hz; simpl in Hz; [by simplify_eq|].
    apply (Hlt k'); [lia|done].
Qed.

Lemma index_of_path_None l t :
  index_of_path h l t = None ↔ ∀ k y, l !! k = Some y → paths_equal h y t = false.
Proof.
  induction l as [|x l IH]; simpl.
  - split; [intros _ k y; by rewrite lookup_nil | done].
  - destruct (paths_equal h x t) eqn:Hx.
    + split; [done|]. intros Hall. specialize (Hall 0 x eq_refl). congruence.
    + destruct (index_of_path h l t) as [k|] eqn:Hl; simpl.
      * split; [done|]. intros Hall.
        assert (Some k = None); [|done].
        apply IH. intros k' y Hy. apply (Hall (S k')). done.
      * split; [|done]. intros _ [|k'] y Hy; simpl in Hy; [by simplify_eq|].
        destruct IH as [IH _]. by apply (IH eq_refl k').
Qed.

Lemma index_of_path_take l t i j :
  index_of_path h l t = Some j → i ≤ j → index_of_path h (take i l) t = None.
Proof.
  intros Hj Hij. apply index_of_path_None. intros k y Hk.
  apply lookup_take_Some in Hk as [Hk Hlt].
  destruct (index_of_path_Some _ _ _ Hj) as [_ Hbefore].
  apply (Hbefore k); [lia|done].
Qed.

(** *** Path conversion *)

Lemma path_conversion_str_posix E :
  on_win h = false → path_conversion_str h self E = Ok E.
Proof.
  intros Hw. unfold path_conversion_str, native_path_to_unix_str.
  rewrite Hw. by destruct (path_conversion self).
Qed.

Lemma shell_form_posix l : on_win h = false → shell_form h self l.
Proof.
  intros Hw. unfold shell_form, path_conversion_seq, native_path_to_unix_seq.
  rewrite Hw. by destruct (path_conversion self).
Qed.

Lemma converted_posix E : on_win h = false → converted h self E = E.
Proof. intros Hw. unfold converted. by rewrite path_conversion_str_posix. Qed.

Lemma converted_Ok E : is_Ok (path_conversion_str h self E) →
  path_conversion_str h self E = Ok (converted h self E).
Proof. intros [E' HE]. unfold converted. by rewrite HE. Qed.

(** *** Slices *)

Lemma del_slice_block {A} (pre blk rest : list A) :
  del_slice (length pre) (length pre + length blk) (pre ++ blk ++ rest) = pre ++ rest.
Proof.
  unfold del_slice. rewrite take_app_length.
  replace (length pre `max` (length pre + length blk))
    with (length pre + length blk) by lia.
  rewrite drop_app_add', drop_app_length; done.
Qed.

Lemma insert_slice_app {A} (pre blk rest : list A) :
  insert_slice (length pre) blk (pre ++ rest) = pre ++ blk ++ rest.
Proof. unfold insert_slice. by rewrite take_app_length, drop_app_length. Qed.

(** *** Removal of a block that stands in the list *)

Lemma index_first_dir_block E pre rest :
  index_of_path h pre (first_dir h self E) = None →
  index_of_path h (pre ++ _get_path_dirs2 h self E ++ rest) (first_dir h self E)
  = Some (length pre).
Proof.
  intros Hpre. rewrite index_of_path_app, Hpre.
  destruct (dirs2_cons E) as [tl ->]. simpl.
  rewrite paths_equal_refl. simpl. f_equal. lia.
Qed.

Lemma index_last_dir_block E pre rest :
  index_of_path h pre (last_dir h self E) = None →
  last_dir_fresh h self E →
  index_of_path h (pre ++ _get_path_dirs2 h self E ++ rest) (last_dir h self E)
  = Some (length pre + (length (_get_path_dirs2 h self E) - 1)).
Proof.
  intros Hpre Hfresh. rewrite index_of_path_app, Hpre.
  rewrite index_of_path_app, Hfresh. done.
Qed.

Lemma remove_step_block E pre rest :
  index_of_path h pre (first_dir h self E) = None →
  index_of_path h pre (last_dir h self E) = None →
  last_dir_fresh h self E →
  remove_step h self (Some E) (pre ++ _get_path_dirs2 h self E ++ rest)
  = Ok (length pre, pre ++ rest).
Proof.
  intros Hfirst Hlast Hfresh. unfold remove_step.
  fold (first_dir h self E). fold (last_dir h self E).
  rewrite index_first_dir_block by done.
  rewrite index_last_dir_block by done.
  pose proof (dirs2_length E).
  replace (length pre + (length (_get_path_dirs2 h self E) - 1) + 1)
    with (length pre + length (_get_path_dirs2 h self E)) by lia.
  by rewrite del_slice_block.
Qed.

(** [_replace_prefix_in_path] once the three conversions are done. *)
Lemma replace_prefix_unfold old new start old' new' path_list :
  path_conversion_opt h self old = Ok old' →
  path_conversion_opt h self new = Ok new' →
  path_conversion_seq h self start = Ok path_list →
  _replace_prefix_in_path h self environ old new (Some start)
  = (remove_step h self old' path_list ≫= λ '(first_idx, path_list),
       match new' with
       | Some new_prefix =>
           Ok (insert_slice first_idx (_get_path_dirs2 h self new_prefix) path_list)
       | None => Ok path_list
       end).
Proof.
  intros Ho Hn Hs. unfold _replace_prefix_in_path, starting_path_list.
  rewrite Ho, Hn, Hs. reflexivity.
Qed.

(** *** Round trip and positional replacement *)

Lemma ready_cases E P :
  (on_win h = true → windows_ready h self E P) → windows_ready h self E P.
Proof.
  intros Hwin. destruct (on_win h) eqn:Hw; [by apply Hwin|].
  split; [|split; [|split]].
  - eexists. by apply path_conversion_str_posix.
  - by apply shell_form_posix.
  - by apply shell_form_posix.
  - by apply last_dir_fresh_posix.
Qed.

Lemma add_prefix_ready E P :
  is_Ok (path_conversion_str h self E) → shell_form h self P →
  _add_prefix_to_path h self environ E (Some P)
  = Ok (_get_path_dirs2 h self (converted h self E) ++ P).
Proof.
  intros HE HP. unfold _add_prefix_to_path, starting_path_list.
  rewrite (converted_Ok E HE). simpl. rewrite HP. reflexivity.
Qed.

(** C1. On every host, for every shell, prefix [E] and path list [P]:
    activating [E] at level 0 ([_add_prefix_to_path]) and then deactivating
    ([_remove_prefix_from_path] on that result) gives back exactly [P]. On a
    POSIX host nothing is assumed; on a Windows host the paths are taken
    to be in the shell's form ([windows_ready]). *)
Theorem add_then_remove_roundtrip E P :
  (on_win h = true → windows_ready h self E P) →
  ∃ activated,
    _add_prefix_to_path h self environ E (Some P) = Ok activated
    ∧ _remove_prefix_from_path h self environ (Some E) (Some activated) = Ok P.
Proof.
  intros Hready. apply ready_cases in Hready as (HE & HP & HEP & Hfresh).
  eexists. split; [by apply add_prefix_ready|].
  unfold _remove_prefix_from_path.
  erewrite replace_prefix_unfold; [| |reflexivity|exact HEP].
  2:{ simpl. rewrite (converted_Ok E HE). reflexivity. }
  change (?d ++ P) with ([] ++ d ++ P).
  rewrite remove_step_block; done.
Qed.

(** C2. When the path list starts with the directories of [A], followed by
    [rest], [_replace_prefix_in_path A B] returns the directories of [B]
    followed by [rest]: the new block stands where the old one stood and
    no other entry moves. On a POSIX host nothing is assumed. *)
Theorem replace_is_positional (A B : string) rest :
  (on_win h = true → windows_ready_replace h self A B rest) →
  _replace_prefix_in_path h self environ (Some A) (Some B)
    (Some (_get_path_dirs2 h self (converted h self A) ++ rest))
  = Ok (_get_path_dirs2 h self (converted h self B) ++ rest).
Proof.
  intros Hready.
  assert (windows_ready_replace h self A B rest) as (HA & HB & Hform & Hfresh).
  { destruct (on_win h) eqn:Hw; [by apply Hready|].
    split; [|split; [|split]].
    - eexists. by apply path_conversion_str_posix.
    - eexists. by apply path_conversion_str_posix.
    - by apply shell_form_posix.
    - by apply last_dir_fresh_posix. }
  erewrite replace_prefix_unfold; [| | |exact Hform].
  2:{ simpl. rewrite (converted_Ok A HA). reflexivity. }
  2:{ simpl. rewrite (converted_Ok B HB). reflexivity. }
  change (?d ++ rest) with ([] ++ d ++ rest) at 1.
  rewrite remove_step_block; done.
Qed.

(** *** The removal step *)

Lemma del_slice_length {A} (i j : nat) (l : list A) :
  i < length l → j < length l →
  length (del_slice i (j + 1) l) + (S j - i) = length l.
Proof.
  intros Hi Hj. unfold del_slice.
  rewrite length_app, length_take, length_drop. lia.
Qed.

Lemma del_slice_lookup_before {A} (i j k : nat) (l : list A) :
  k < i → del_slice i (j + 1) l !! k = l !! k.
Proof.
  intros Hk. unfold del_slice.
  destruct (decide (k < length l)) as [Hlt|Hge].
  - rewrite lookup_app_l by (rewrite length_take; lia).
    by rewrite lookup_take_lt.
  - rewrite (lookup_ge_None_2 l k) by lia.
    apply lookup_ge_None_2.
    rewrite length_app, length_take, length_drop. lia.
Qed.

Lemma del_slice_lookup_after {A} (i j k : nat) (l : list A) :
  i < length l → i ≤ k → del_slice i (j + 1) l !! k = l !! (k + (S j - i)).
Proof.
  intros Hi Hk. unfold del_slice.
  rewrite lookup_app_r by (rewrite length_take; lia).
  rewrite length_take, lookup_drop. f_equal. lia.
Qed.

(** C3, as the code has it. Without an entry equal to the first directory
    of [E], nothing is deleted and index 0 is the insertion point. With
    such an entry, first met at index [i], the assertion asks that the last
    directory of [E] be met somewhere in the list, at an index [j] that may
    lie before [i]; the [S j - i] entries from [i] to [j] are deleted (none
    when [j < i]) and every other entry keeps its value and its order. On a
    POSIX host [j = i]. *)
Theorem removal_is_positional E (path_list : list string) :
  match index_of_path h path_list (first_dir h self E) with
  | None => remove_step h self (Some E) path_list = Ok (0, path_list)
  | Some i =>
      match index_of_path h path_list (last_dir h self E) with
      | None => remove_step h self (Some E) path_list = Raise AssertionError
      | Some j =>
          (on_win h = false → j = i)
          ∧ ∃ left,
              remove_step h self (Some E) path_list = Ok (i, left)
              ∧ length left + (S j - i) = length path_list
              ∧ (∀ k, k < i → left !! k = path_list !! k)
              ∧ (∀ k, i ≤ k → left !! k = path_list !! (k + (S j - i)))
      end
  end.
Proof.
  unfold remove_step. fold (first_dir h self E). fold (last_dir h self E).
  destruct (index_of_path h path_list (first_dir h self E)) as [i|] eqn:Hi; [|done].
  destruct (index_of_path h path_list (last_dir h self E)) as [j|] eqn:Hj; [|done].
  pose proof (index_of_path_lt _ _ _ Hi). pose proof (index_of_path_lt _ _ _ Hj).
  split.
  - intros Hw. destruct (dirs2_posix E Hw) as [_ Heq].
    rewrite Heq in Hj. congruence.
  - eexists. split; [reflexivity|]. split; [|split].
    + by apply del_slice_length.
    + intros k Hk. by apply del_slice_lookup_before.
    + intros k Hk. by apply del_slice_lookup_after.
Qed.

(** *** Replacing an environment by itself *)

(** The list [_replace_prefix_in_path E E] returns holds the directories
    of [E] as one block, and no entry before the block compares equal to
    the first or to the last of them, provided the last directory was not
    met before the first one. *)
Lemma replace_self_shape E' (path_list : list string) i left :
  remove_step h self (Some E') path_list = Ok (i, left) →
  (∀ i j, index_of_path h path_list (first_dir h self E') = Some i →
          index_of_path h path_list (last_dir h self E') = Some j → i ≤ j) →
  ∃ pre rest,
    insert_slice i (_get_path_dirs2 h self E') left
    = pre ++ _get_path_dirs2 h self E' ++ rest
    ∧ index_of_path h pre (first_dir h self E') = None
    ∧ index_of_path h pre (last_dir h self E') = None.
Proof.
  unfold remove_step. fold (first_dir h self E'). fold (last_dir h self E').
  intros Hstep Hord.
  destruct (index_of_path h path_list (first_dir h self E')) as [i'|] eqn:Hi.
  - destruct (index_of_path h path_list (last_dir h self E')) as [j|] eqn:Hj; [|done].
    injection Hstep as <- <-.
    pose proof (Hord i' j eq_refl eq_refl) as Hij.
    pose proof (index_of_path_lt _ _ _ Hi) as Hlen.
    exists (take i' path_list), (drop (S j) path_list). split; [|split].
    + unfold del_slice, insert_slice.
      replace (i' `max` (j + 1)) with (S j) by lia.
      rewrite take_app_length', drop_app_length'; [done| |];
        rewrite length_take; lia.
    + by eapply index_of_path_take.
    + by eapply index_of_path_take.
  - injection Hstep as <- <-. exists [], path_list. done.
Qed.

Lemma replace_self_again E (R : list string) :
  is_Ok (path_conversion_str h self E) → shell_form h self R →
  last_dir_fresh h self (converted h self E) →
  ∀ pre rest,
    R = pre ++ _get_path_dirs2 h self (converted h self E) ++ rest →
    index_of_path h pre (first_dir h self (converted h self E)) = None →
    index_of_path h pre (last_dir h self (converted h self E)) = None →
    _replace_prefix_in_path h self environ (Some E) (Some E) (Some R) = Ok R.
Proof.
  intros HE HR Hfresh pre rest -> Hfirst Hlast.
  erewrite replace_prefix_unfold; [| | |exact HR].
  2,3: simpl; rewrite (converted_Ok E HE); reflexivity.
  rewrite remove_step_block by done. simpl.
  by rewrite insert_slice_app.
Qed.

Lemma reactivate_path_idempotent_ready E :
  (on_win h = true → windows_ready_reactivate h self environ E) →
  reactivate_path_idempotent h self environ E.
Proof.
  intros Hready R HR. pose proof HR as HR0.
  unfold _replace_prefix_in_path in HR.
  apply bind_Ok_inv in HR as (old' & Hold & HR).
  apply bind_Ok_inv in HR as (new' & Hnew & HR).
  apply bind_Ok_inv in HR as (path_list & Hstart & HR).
  apply bind_Ok_inv in HR as ([i left] & Hstep & HR).
  simpl in Hold. apply fmap_Ok_inv in Hold as (E' & HE & ->).
  simpl in Hnew. rewrite HE in Hnew. injection Hnew as <-.
  injection HR as <-.
  assert (is_Ok (path_conversion_str h self E)) as HEok by (by eexists).
  assert (converted h self E = E') as Hconv by (unfold converted; by rewrite HE).
  assert (shell_form h self (insert_slice i (_get_path_dirs2 h self E') left)
          ∧ last_dir_fresh h self (converted h self E)
          ∧ ∀ i j,
              index_of_path h path_list (first_dir h self (converted h self E))
              = Some i →
              index_of_path h path_list (last_dir h self (converted h self E))
              = Some j → i ≤ j)
    as (Hform & Hfresh & Hord).
  { destruct (on_win h) eqn:Hw; [by apply (Hready eq_refl path_list)|].
    split; [by apply shell_form_posix|]. split; [by apply last_dir_fresh_posix|].
    intros a b Ha Hb. destruct (dirs2_posix (converted h self E) Hw) as [_ Heq].
    rewrite Heq in Hb. assert (a = b) by congruence. lia. }
  rewrite Hconv in Hfresh, Hord.
  destruct (replace_self_shape E' path_list i left Hstep Hord)
    as (pre & rest & Hshape & Hfirst & Hlast).
  apply (replace_self_again E _ HEok Hform) with pre rest; rewrite Hconv; done.
Qed.

End editor_facts.

(** ** The state reader *)

Lemma lstrip_blank s : PyStr.blank s = true → PyStr.lstrip s = EmptyString.
Proof.
  induction s as [|c s IH]; simpl; [done|].
  intros [Hc Hs]%andb_prop. rewrite Hc. by apply IH.
Qed.

Lemma strip_blank s : PyStr.blank s = true → PyStr.strip s = EmptyString.
Proof. intros Hs. unfold PyStr.strip. by rewrite lstrip_blank. Qed.

Create HintDb nle.

Section machine_facts.

Variable h : Host.
Variable self : Activator.
Variable environ : gmap string string.

Lemma conda_shlvl_blank : shlvl_blank environ → conda_shlvl environ = Ok 0%Z.
Proof.
  unfold shlvl_blank, conda_shlvl.
  destruct (environ !! "CONDA_SHLVL") as [s|]; simpl; [|done].
  intros Hs. by rewrite strip_blank.
Qed.

Lemma conda_shlvl_level_zero : level_zero environ → conda_shlvl environ = Ok 0%Z.
Proof.
  unfold level_zero. intros Hz. destruct (environ !! "CONDA_SHLVL") as [s|] eqn:Hs.
  - destruct Hz as [Hb | Hz].
    + apply conda_shlvl_blank. unfold shlvl_blank. by rewrite Hs.
    + unfold conda_shlvl. rewrite Hs. simpl. rewrite Hz. reflexivity.
  - apply conda_shlvl_blank. unfold shlvl_blank. by rewrite Hs.
Qed.

Lemma py_not_no_prefix : no_prefix environ → py_not (environ !! "CONDA_PREFIX") = true.
Proof. by intros [-> | ->]. Qed.

(** C4. At level 0, that is with [CONDA_SHLVL] absent, blank or [0],
    [build_deactivate] returns the empty instruction set: nothing to
    unset, to set or to export, and no script to run. *)
Theorem deactivate_at_level_zero :
  level_zero environ →
  build_deactivate h self environ = Ok no_op
  ∧ unset_vars no_op = [] ∧ set_vars no_op = [] ∧ export_vars no_op = []
  ∧ deactivate_scripts no_op = [] ∧ activate_scripts no_op = [].
Proof.
  intros Hz. split; [|done].
  unfold build_deactivate. rewrite (conda_shlvl_level_zero Hz). simpl.
  by rewrite orb_true_r.
Qed.

(** C10. Without [CONDA_PREFIX] (absent or empty), [build_deactivate] and
    [build_reactivate] return the empty instruction set whatever the level
    [L] read from [CONDA_SHLVL], also when [1 ≤ L]; and a [CONDA_SHLVL]
    that is absent, empty or made of white space reads as level 0, without
    an error. *)
Theorem no_prefix_is_no_op :
  (no_prefix environ → ∀ L, conda_shlvl environ = Ok L →
     build_deactivate h self environ = Ok no_op
     ∧ build_reactivate h self environ = Ok no_op)
  ∧ (shlvl_blank environ → conda_shlvl environ = Ok 0%Z).
Proof.
  split; [|apply conda_shlvl_blank].
  intros Hp L HL. unfold build_deactivate, build_reactivate.
  rewrite HL, (py_not_no_prefix Hp). done.
Qed.

(** C6. At a level [L > 0] with current prefix [P], a target that stands
    for [P] makes [build_activate] and [build_stack] return what
    [build_reactivate] returns: a refresh, in which the level [L + 1] is
    not exported. *)
Theorem reentering_is_reactivate (target P : string) (L : Z) :
  resolve_prefix h target = Ok P →
  environ !! "CONDA_PREFIX" = Some P →
  conda_shlvl environ = Ok L →
  (0 < L)%Z →
  build_activate h self environ target = build_reactivate h self environ
  ∧ build_stack h self environ target = build_reactivate h self environ
  ∧ ∀ c, build_reactivate h self environ = Ok c →
         Dict.get "CONDA_SHLVL" (export_vars c) ≠ Some (VInt (L + 1)).
Proof.
  intros Hres HP HL Hpos.
  assert (∀ stacking, _build_activate_stack h self environ target stacking
                      = build_reactivate h self environ) as Hboth.
  { intros stacking. unfold _build_activate_stack.
    rewrite Hres, HL, HP. simpl.
    rewrite bool_decide_eq_true_2 by done.
    by rewrite (proj2 (Z.ltb_lt 0 L) Hpos). }
  split; [apply Hboth|]. split; [apply Hboth|].
  intros c. unfold build_reactivate. rewrite HL, HP. simpl.
  destruct (_ || _); [by intros [= <-]|].
  intros Hc.
  apply bind_Ok_inv in Hc as (R & _ & Hc).
  apply bind_Ok_inv in Hc as (ds & _ & Hc).
  apply bind_Ok_inv in Hc as (acs & _ & Hc).
  injection Hc as <-. simpl. intros [= Heq]. lia.
Qed.

(** *** Reactivation *)

Lemma remove_step_posix (old : option string) (path_list : list string) :
  on_win h = false → is_Ok (remove_step h self old path_list).
Proof.
  intros Hw. unfold remove_step. destruct old as [E|]; [|by eexists].
  destruct (dirs2_posix h self E Hw) as [Hdirs Hlast].
  unfold last_dir, first_dir in Hlast. rewrite Hlast.
  destruct (index_of_path h path_list _); by eexists.
Qed.

Lemma scripts_posix (l : list string) :
  on_win h = false → path_conversion_seq h self l = Ok l.
Proof. apply shell_form_posix. Qed.

Lemma replace_prefix_posix (E : string) (path : string) :
  on_win h = false → environ !! "PATH" = Some path →
  is_Ok (_replace_prefix_in_path h self environ (Some E) (Some E) None).
Proof.
  intros Hw Hpath. unfold _replace_prefix_in_path, starting_path_list,
    _get_starting_path_list. simpl.
  rewrite (path_conversion_str_posix h self E Hw), Hpath, Hw. simpl.
  rewrite scripts_posix by done. simpl.
  destruct (remove_step_posix (Some E) (PyStr.split (os_pathsep h) path) Hw)
    as [[i left] ->].
  by eexists.
Qed.

(** C5, as the code has it. At a level [L ≥ 1] with active prefix [E]:
    the path computation of [build_reactivate], the replacement of [E] by
    itself, gives the same list when run again on its own result, on every
    POSIX host and, on a Windows host, when the last directory of [E] is
    not met before the first one in the path list ([windows_ready_reactivate]);
    the instruction set holds that path, and with it the whole lists of
    deactivate and activate scripts of [E]; on a POSIX host with [PATH] set
    an instruction set is returned. *)
Theorem reactivate_refreshes (E : string) (L : Z) :
  environ !! "CONDA_PREFIX" = Some E → E ≠ EmptyString →
  conda_shlvl environ = Ok L → (1 ≤ L)%Z →
  (on_win h = true → windows_ready_reactivate h self environ E) →
  reactivate_path_idempotent h self environ E
  ∧ (∀ c, build_reactivate h self environ = Ok c →
       (∃ R, _replace_prefix_in_path h self environ (Some E) (Some E) None = Ok R
             ∧ Dict.get "PATH" (export_vars c)
               = Some (VStr (PyStr.join (pathsep_join self) R)))
       ∧ _get_deactivate_scripts h self E = Ok (deactivate_scripts c)
       ∧ _get_activate_scripts h self E = Ok (activate_scripts c))
  ∧ (on_win h = false → is_Some (environ !! "PATH") →
     is_Ok (build_reactivate h self environ)).
Proof.
  intros HE Hne HL Hpos Hready.
  assert (PyStr.is_empty E || (L <? 1)%Z = false) as Hgo.
  { apply orb_false_intro; [by destruct E | by apply Z.ltb_ge]. }
  split; [by apply reactivate_path_idempotent_ready|]. split.
  - intros c. unfold build_reactivate. rewrite HL, HE. simpl. rewrite Hgo.
    intros Hc.
    apply bind_Ok_inv in Hc as (R & HR & Hc).
    apply bind_Ok_inv in Hc as (ds & Hds & Hc).
    apply bind_Ok_inv in Hc as (acs & Has & Hc).
    injection Hc as <-. simpl. eauto.
  - intros Hw [path Hpath]. unfold build_reactivate.
    rewrite HL, HE. simpl. rewrite Hgo.
    destruct (replace_prefix_posix E path Hw Hpath) as [R ->]. simpl.
    unfold _get_deactivate_scripts, _get_activate_scripts.
    rewrite !scripts_posix by done. simpl. by eexists.
Qed.

(** *** Where [EnvironmentLocationNotFound] comes from *)

Lemma nle_Ok {A} (a : A) : not_location_error (Ok a).
Proof. intros p. discriminate. Qed.

Lemma nle_bind {A B} (m : result A) (f : A → result B) :
  not_location_error m → (∀ a, not_location_error (f a)) →
  not_location_error (m ≫= f).
Proof.
  intros Hm Hf. destruct m as [a|e]; [apply Hf|].
  intros p [= ->]. by apply (Hm p).
Qed.

Lemma nle_fmap {A B} (m : result A) (f : A → B) :
  not_location_error m → not_location_error (f <$> m).
Proof.
  intros Hm. destruct m as [a|e]; [apply nle_Ok|].
  intros p [= ->]. by apply (Hm p).
Qed.

(** Split a goal along binds and case analyses, and close the leaves that
    return a value or raise another exception. *)
Ltac nle_step :=
  match goal with
  | |- not_location_error (Ok _) => apply nle_Ok
  | |- not_location_error (Raise _) => intros ?; discriminate
  | |- not_location_error (_ ≫= _) => apply nle_bind; [|intros ?]
  | |- not_location_error (_ <$> _) => apply nle_fmap
  | |- not_location_error (let '(_, _) := ?x in _) => destruct x
  | |- not_location_error (if ?b then _ else _) => destruct b
  | |- not_location_error (match ?x with _ => _ end) => destruct x
  end.
Ltac nle := repeat nle_step.

Lemma nle_path_conversion_str p : not_location_error (path_conversion_str h self p).
Proof.
  unfold path_conversion_str, native_path_to_unix_str, run_cygpath. nle.
Qed.

Lemma nle_path_conversion_opt p : not_location_error (path_conversion_opt h self p).
Proof.
  unfold path_conversion_opt. destruct p; [|apply nle_Ok].
  apply nle_fmap, nle_path_conversion_str.
Qed.

Lemma nle_path_conversion_seq l : not_location_error (path_conversion_seq h self l).
Proof.
  unfold path_conversion_seq, native_path_to_unix_seq, run_cygpath. nle.
Qed.

Lemma nle_starting_path_list s :
  not_location_error (starting_path_list h self environ s).
Proof.
  unfold starting_path_list, _get_starting_path_list.
  destruct s; [apply nle_path_conversion_seq|].
  apply nle_bind; [nle | intros; apply nle_path_conversion_seq].
Qed.

Lemma nle_add_prefix p s :
  not_location_error (_add_prefix_to_path h self environ p s).
Proof.
  unfold _add_prefix_to_path.
  apply nle_bind; [apply nle_path_conversion_str | intros].
  apply nle_bind; [apply nle_starting_path_list | intros]. apply nle_Ok.
Qed.

Lemma nle_replace_prefix old new s :
  not_location_error (_replace_prefix_in_path h self environ old new s).
Proof.
  unfold _replace_prefix_in_path.
  apply nle_bind; [apply nle_path_conversion_opt | intros].
  apply nle_bind; [apply nle_path_conversion_opt | intros].
  apply nle_bind; [apply nle_starting_path_list | intros].
  apply nle_bind; [unfold remove_step; nle | intros [? ?]; nle].
Qed.

Lemma nle_conda_shlvl : not_location_error (conda_shlvl environ).
Proof. unfold conda_shlvl, PyStr.int. nle. Qed.

Local Hint Resolve nle_Ok nle_path_conversion_str nle_path_conversion_seq
  nle_add_prefix nle_replace_prefix nle_conda_shlvl : nle.

Lemma nle_build_deactivate : not_location_error (build_deactivate h self environ).
Proof.
  unfold build_deactivate, _remove_prefix_from_path,
    _get_deactivate_scripts, _get_activate_scripts.
  repeat first
    [ apply nle_bind; [auto with nle; fail | intros ?]
    | apply nle_bind; [|intros ?]
    | nle_step
    | solve [auto with nle] ].
Qed.

Lemma nle_build_reactivate : not_location_error (build_reactivate h self environ).
Proof.
  unfold build_reactivate, _get_deactivate_scripts, _get_activate_scripts.
  repeat first
    [ apply nle_bind; [auto with nle; fail | intros ?]
    | nle_step
    | solve [auto with nle] ].
Qed.

(** Once the prefix is known, no later step raises
    [EnvironmentLocationNotFound]. *)
Lemma nle_after_resolve (target : string) (stack : bool) (prefix : string) :
  resolve_prefix h target = Ok prefix →
  not_location_error (_build_activate_stack h self environ target stack).
Proof.
  intros Hres. unfold _build_activate_stack. rewrite Hres.
  change (Ok prefix ≫= ?f) with (f prefix). cbv beta.
  apply nle_bind; [apply nle_conda_shlvl | intros L].
  destruct (_ && _); [apply nle_build_reactivate|].
  unfold _get_activate_scripts, _get_deactivate_scripts.
  apply nle_bind; [auto with nle | intros acs].
  destruct (L =? 0)%Z.
  { repeat (apply nle_bind; [auto with nle | intros ?]). apply nle_Ok. }
  destruct (bool_decide _); [apply nle_build_deactivate|].
  destruct stack.
  { repeat (apply nle_bind; [auto with nle | intros ?]). apply nle_Ok. }
  apply nle_bind; [auto with nle | intros ?].
  apply nle_bind; [|intros ?; apply nle_Ok].
  destruct (environ !! "CONDA_PREFIX"); [auto with nle | nle].
Qed.

(** C7, as the code has it. For a target that holds a path separator,
    [build_activate] and [build_stack], and the method [activate] on top of
    them, fail with [EnvironmentLocationNotFound] if and only if the
    expanded path has no [conda-meta] directory; the error names that path
    and no instruction set is returned. (The aliases [base] and [root] are
    not checked, and a name is left to [locate_prefix_by_name].) *)
Theorem location_not_found_iff (target : string) (stacking : bool) :
  PyStr.has_path_separator target = true →
  let prefix := expand h target in
  let missing := isdir h (join h prefix ["conda-meta"]) = false in
  ((∃ p, _build_activate_stack h self environ target stacking
         = Raise (EnvironmentLocationNotFound p)) ↔ missing)
  ∧ (missing →
       _build_activate_stack h self environ target stacking
       = Raise (EnvironmentLocationNotFound prefix)
       ∧ ∀ c, _build_activate_stack h self environ target stacking ≠ Ok c)
  ∧ (∀ args, env_name_or_prefix args = Some target → stack args = Some stacking →
       (∃ p, activate h self environ args = Raise (EnvironmentLocationNotFound p))
       ↔ missing).
Proof.
  intros Hsep prefix missing.
  assert (missing →
          _build_activate_stack h self environ target stacking
          = Raise (EnvironmentLocationNotFound prefix)) as Hfail.
  { intros Hm. unfold _build_activate_stack, resolve_prefix.
    rewrite Hsep. fold prefix. unfold missing in Hm. by rewrite Hm. }
  assert (¬ missing →
          not_location_error (_build_activate_stack h self environ target stacking))
    as Hpass.
  { intros Hm. apply (nle_after_resolve target stacking prefix).
    unfold resolve_prefix. rewrite Hsep. fold prefix.
    unfold missing in Hm. by destruct (isdir h _). }
  assert (Decision missing) as Hdec by (unfold missing; apply _).
  split; [|split].
  - split; [|by eauto].
    intros [p Hp]. destruct Hdec as [|Hno]; [done|]. by destruct (Hpass Hno p).
  - intros Hm. split; [by apply Hfail|]. intros c. rewrite (Hfail Hm). discriminate.
  - intros args Henv Hstack. unfold activate. rewrite Henv, Hstack.
    assert ((if stacking then build_stack h self environ target
             else build_activate h self environ target)
            = _build_activate_stack h self environ target stacking) as ->
      by (by destruct stacking).
    split.
    + intros [p Hp]. destruct Hdec as [|Hno]; [done|].
      exfalso. revert Hp. apply nle_bind; [by apply Hpass|].
      intros c. unfold _finalize. nle.
    + intros Hm. exists prefix. by rewrite (Hfail Hm).
Qed.

End machine_facts.

(** ** The renderer *)

Global Instance item_le_trans : Transitive item_le.
Proof. intros x y z. unfold item_le. apply transitivity. Qed.

Global Instance item_le_total : Total item_le.
Proof. intros x y. unfold item_le. apply total, _. Qed.

(** In a dictionary a key has one value. *)
Lemma dict_key_unique (d : dict) (k : string) (v1 v2 : value) :
  NoDup (Dict.keys d) → (k, v1) ∈ d → (k, v2) ∈ d → v1 = v2.
Proof.
  unfold Dict.keys. induction d as [|[k' v'] d IH]; csimpl; [by intros _ ?%elem_of_nil|].
  intros [Hk' Hd]%NoDup_cons H1 H2.
  apply elem_of_cons in H1 as [H1|H1], H2 as [H2|H2]; simplify_eq; [done|..].
  - destruct Hk'. apply list_elem_of_fmap. by eexists (_, _).
  - destruct Hk'. apply list_elem_of_fmap. by eexists (_, _).
  - by apply IH.
Qed.

Lemma sorted_sorted (l : list string) : Sorted String.le (sorted l).
Proof. apply (Sorted_merge_sort String.le). Qed.

Lemma sorted_perm (l : list string) : sorted l ≡ₚ l.
Proof. apply merge_sort_Permutation. Qed.

Lemma sorted_items_sorted (d : dict) : Sorted String.le (Dict.keys (sorted_items d)).
Proof.
  unfold Dict.keys. apply (Sorted_fmap _ item_le); [done|].
  apply (Sorted_merge_sort item_le).
Qed.

Lemma sorted_items_perm (d : dict) : sorted_items d ≡ₚ d.
Proof. apply merge_sort_Permutation. Qed.

(** The sorted list does not depend on the order the names came in. *)
Lemma sorted_order_free (l l' : list string) : l' ≡ₚ l → sorted l' = sorted l.
Proof.
  intros Hp. apply (Sorted_unique String.le); [apply sorted_sorted..|].
  by rewrite !sorted_perm.
Qed.

Lemma sorted_items_order_free (d d' : dict) :
  NoDup (Dict.keys d) → d' ≡ₚ d → sorted_items d' = sorted_items d.
Proof.
  intros Hnd Hp. apply (Sorted_unique_strong item_le).
  - intros [k1 v1] [k2 v2] H1 H2 Hle Hge.
    rewrite sorted_items_perm in H1, H2. rewrite Hp in H1.
    assert (k1 = k2) as -> by (by apply (anti_symm String.le)).
    f_equal. by eapply dict_key_unique.
  - apply (Sorted_merge_sort item_le).
  - apply (Sorted_merge_sort item_le).
  - by rewrite !sorted_items_perm.
Qed.

Section renderer_facts.

Variable self : Activator.

(** C8. The commands come in five runs, in this order: the deactivate
    scripts as listed, the unset commands by ascending name, the local
    settings by ascending name, the exports by ascending name, the activate
    scripts as listed. Each sorted run holds exactly the names of the
    instruction set, and two instruction sets that differ only in the order
    in which their names were inserted give the same commands. *)
Theorem yield_commands_order (c : cmds_dict) :
  (∃ (us : list string) (ss es : dict),
     _yield_commands self c
     = (run_script_tmpl self <$> deactivate_scripts c)
       ++ (unset_var_tmpl self <$> us)
       ++ ((λ kv, set_var_tmpl self kv.1 (str kv.2)) <$> ss)
       ++ ((λ kv, export_var_tmpl self kv.1 (str kv.2)) <$> es)
       ++ (run_script_tmpl self <$> activate_scripts c)
     ∧ us ≡ₚ unset_vars c ∧ Sorted String.le us
     ∧ ss ≡ₚ set_vars c ∧ Sorted String.le (Dict.keys ss)
     ∧ es ≡ₚ export_vars c ∧ Sorted String.le (Dict.keys es))
  ∧ ∀ c' : cmds_dict,
      deactivate_scripts c' = deactivate_scripts c →
      activate_scripts c' = activate_scripts c →
      unset_vars c' ≡ₚ unset_vars c →
      NoDup (Dict.keys (set_vars c)) → set_vars c' ≡ₚ set_vars c →
      NoDup (Dict.keys (export_vars c)) → export_vars c' ≡ₚ export_vars c →
      _yield_commands self c' = _yield_commands self c.
Proof.
  split.
  - exists (sorted (unset_vars c)), (sorted_items (set_vars c)),
      (sorted_items (export_vars c)).
    split; [reflexivity|].
    auto 10 using sorted_sorted, sorted_perm, sorted_items_sorted, sorted_items_perm.
  - intros c' Hd Ha Hu Hns Hs Hne He. unfold _yield_commands.
    rewrite Hd, Ha, (sorted_order_free _ _ Hu),
      (sorted_items_order_free _ _ Hns Hs), (sorted_items_order_free _ _ Hne He).
    reflexivity.
Qed.

End renderer_facts.

(** ** The front end *)

Lemma filter_all {A} (P : A → Prop) `{∀ x, Decision (P x)} (l : list A) :
  Forall P l → filter P l = l.
Proof.
  induction 1 as [|x l Hx _ IH]; [done|].
  by rewrite filter_cons_True, IH.
Qed.

Lemma filter_none {A} (P : A → Prop) `{∀ x, Decision (P x)} (l : list A) :
  Forall (λ x, ¬ P x) l → filter P l = [].
Proof.
  induction 1 as [|x l Hx _ IH]; [done|].
  by rewrite filter_cons_False.
Qed.

(** C9. For the command [activate] without a help flag, when no positional
    argument is left after the filtering the target is [base]; arguments
    that are empty or the word [activate] are dropped by the filtering, so
    that they too lead to [base] and not to an [ArgumentError]. *)
Theorem activate_defaults_to_base (arguments : list string) :
  (Forall (λ arg, arg ∉ help_flags) arguments →
   positional_args arguments = [] →
   ∃ stacking,
     _parse_and_set_args (Some ("activate" :: arguments))
     = Ok {| command := "activate"; stack := Some stacking;
             env_name_or_prefix := Some "base" |})
  ∧ (Forall (λ arg, arg = EmptyString ∨ arg = "activate") arguments →
     _parse_and_set_args (Some ("activate" :: arguments))
     = Ok {| command := "activate"; stack := Some false;
             env_name_or_prefix := Some "base" |}).
Proof.
  assert (Forall (λ arg, arg ∉ help_flags) arguments →
          ∀ stacking rest,
            match list_index "--stack"
                    (filter (λ arg, arg ≠ EmptyString ∧ arg ≠ "activate") arguments)
            with
            | None => (false, filter (λ arg, arg ≠ EmptyString ∧ arg ≠ "activate") arguments)
            | Some stack_idx =>
                (true, delete stack_idx
                         (filter (λ arg, arg ≠ EmptyString ∧ arg ≠ "activate") arguments))
            end = (stacking, rest) →
            rest = [] →
            _parse_and_set_args (Some ("activate" :: arguments))
            = Ok {| command := "activate"; stack := Some stacking;
                    env_name_or_prefix := Some "base" |}) as Hparse.
  { intros Hhelp stacking rest Hsplit ->. unfold _parse_and_set_args.
    rewrite (filter_all _ _ Hhelp), Nat.eqb_refl. cbn [negb PyStr.is_empty].
    rewrite bool_decide_eq_false_2
      by (intros Hin; apply Hin; apply (bool_decide_unpack _); by vm_compute).
    destruct (decide ("activate" = "activate")); [|done].
    rewrite Hsplit. reflexivity. }
  split.
  - intros Hhelp. specialize (Hparse Hhelp). unfold positional_args.
    destruct (list_index _ _) as [i|]; intros Hpos;
      eexists; eapply Hparse; done.
  - intros Hall.
    assert (filter (λ arg, arg ≠ EmptyString ∧ arg ≠ "activate") arguments = [])
      as Hnone.
    { apply filter_none. eapply Forall_impl; [exact Hall|].
      intros arg [-> | ->] [? ?]; done. }
    apply (Hparse) with (rest := []); [|by rewrite Hnone|done].
    eapply Forall_impl; [exact Hall|].
    intros arg [-> | ->]; apply (bool_decide_unpack _); by vm_compute.
Qed.

(** ** The properties on the sample hosts *)


Lemma add_then_remove_roundtrip_witness :
  windows_ready win_host cmd "C:\E" ["C:\Windows"]
  ∧ ∃ activated,
      _add_prefix_to_path win_host cmd ∅ "C:\E" (Some ["C:\Windows"]) = Ok activated
      ∧ _remove_prefix_from_path win_host cmd ∅ (Some "C:\E") (Some activated)
        = Ok ["C:\Windows"].
Proof.
  assert (windows_ready win_host cmd "C:\E" ["C:\Windows"]) as Hready.
  { split; [exists "C:\E"; reflexivity|]. repeat split; reflexivity. }
  split; [exact Hready|].
  apply (add_then_remove_roundtrip win_host cmd ∅ "C:\E" ["C:\Windows"]).
  intros _. exact Hready.
Defined.

Lemma replace_is_positional_witness :
  _replace_prefix_in_path win_host cmd ∅ (Some "C:\E") (Some "C:\F")
    (Some ["C:\E"; "C:\E\Library\mingw-w64\bin"; "C:\E\Library\usr\bin";
           "C:\E\Library\bin"; "C:\E\Scripts"; "C:\E\bin"; "C:\Z"; "C:\W"])
  = Ok ["C:\F"; "C:\F\Library\mingw-w64\bin"; "C:\F\Library\usr\bin";
        "C:\F\Library\bin"; "C:\F\Scripts"; "C:\F\bin"; "C:\Z"; "C:\W"].
Proof.
  apply (replace_is_positional win_host cmd ∅ "C:\E" "C:\F" ["C:\Z"; "C:\W"]).
  intros _. split; [exists "C:\E"; reflexivity|].
  split; [exists "C:\F"; reflexivity|]. split; reflexivity.
Defined.

(** On a Windows host, with [C:\E\bin] before [C:\E] in the path list: the
    first directory is met at index 1 and the last one at index 0; the
    assertion passes, nothing is deleted, and the removal is not the one
    the specification words. *)
Lemma removal_assertion_counterexample :
  index_of_path win_host ["C:\E\bin"; "C:\E"] (first_dir win_host cmd "C:\E")
  = Some 1
  ∧ index_of_path win_host ["C:\E\bin"; "C:\E"] (last_dir win_host cmd "C:\E")
    = Some 0
  ∧ remove_step win_host cmd (Some "C:\E") ["C:\E\bin"; "C:\E"]
    = Ok (1, ["C:\E\bin"; "C:\E"])
  ∧ ¬ removal_as_specified win_host cmd "C:\E" ["C:\E\bin"; "C:\E"].
Proof.
  split; [reflexivity|]. split; [reflexivity|]. split; [reflexivity|].
  unfold removal_as_specified.
  change (index_of_path win_host ["C:\E\bin"; "C:\E"] (first_dir win_host cmd "C:\E"))
    with (Some 1).
  intros [Hfail | (j & Hj & Hij & _)].
  - vm_compute in Hfail. discriminate Hfail.
  - vm_compute in Hj. injection Hj as <-. lia.
Qed.

Lemma deactivate_at_level_zero_witness :
  build_deactivate posix_host sh
    (<["CONDA_SHLVL" := "0"]> (<["CONDA_PREFIX" := "/opt/conda/envs/A"]> ∅))
  = Ok no_op.
Proof.
  apply (deactivate_at_level_zero posix_host sh
           (<["CONDA_SHLVL" := "0"]> (<["CONDA_PREFIX" := "/opt/conda/envs/A"]> ∅))).
  unfold level_zero.
  change (_ !! "CONDA_SHLVL") with (Some "0"). right. reflexivity.
Defined.

(** On the tampered path, at level 1 in [C:\E], the replacement of [C:\E]
    by itself deletes nothing and inserts the six directories, each time it
    runs: the second run does not return the list of the first. *)
Lemma reactivate_twice_differs :
  tampered !! "CONDA_PREFIX" = Some "C:\E"
  ∧ conda_shlvl tampered = Ok 1%Z
  ∧ _replace_prefix_in_path win_host cmd tampered (Some "C:\E") (Some "C:\E") None
    = Ok tampered_once
  ∧ _replace_prefix_in_path win_host cmd tampered (Some "C:\E") (Some "C:\E")
      (Some tampered_once)
    = Ok (insert_slice 1 (_get_path_dirs2 win_host cmd "C:\E") tampered_once)
  ∧ ¬ reactivate_path_idempotent win_host cmd tampered "C:\E".
Proof.
  split; [reflexivity|]. split; [reflexivity|]. split; [reflexivity|].
  split; [reflexivity|].
  intros Hidem. specialize (Hidem tampered_once eq_refl).
  vm_compute in Hidem. discriminate Hidem.
Qed.

Lemma reactivate_refreshes_witness :
  windows_ready_reactivate win_host cmd in_E "C:\E"
  ∧ reactivate_path_idempotent win_host cmd in_E "C:\E"
  ∧ ∃ c, build_reactivate win_host cmd in_E = Ok c
         ∧ activate_scripts c = ["C:\E\etc\conda\activate.d\a.bat"].
Proof.
  assert (windows_ready_reactivate win_host cmd in_E "C:\E") as Hready.
  { intros path_list R Hstart HR.
    vm_compute in Hstart. injection Hstart as <-.
    vm_compute in HR. injection HR as <-.
    split; [reflexivity|]. split; [reflexivity|].
    intros i j Hi Hj. vm_compute in Hi, Hj.
    injection Hi as <-. injection Hj as <-. lia. }
  split; [exact Hready|].
  destruct (reactivate_refreshes win_host cmd in_E "C:\E" 1%Z)
    as (Hidem & Hscripts & _);
    [reflexivity | discriminate | reflexivity | lia | intros _; exact Hready |].
  split; [exact Hidem|].
  eexists. split; [vm_compute; reflexivity|]. reflexivity.
Defined.

Lemma reentering_is_reactivate_witness :
  build_activate posix_host sh in_A "/opt/conda/envs/A"
  = build_reactivate posix_host sh in_A
  ∧ build_stack posix_host sh in_A "/opt/conda/envs/A"
    = build_reactivate posix_host sh in_A.
Proof.
  destruct (reentering_is_reactivate posix_host sh in_A
              "/opt/conda/envs/A" "/opt/conda/envs/A" 1%Z)
    as (Hact & Hstack & _); [reflexivity | reflexivity | reflexivity | lia |].
  split; [exact Hact | exact Hstack].
Defined.

(** The alias [root] is resolved without a look at the marker directory:
    on a host whose root prefix has none, the activation returns an
    instruction set. *)
Lemma root_without_marker_activates :
  resolve_prefix bare_host "root" = Ok "/opt/conda"
  ∧ isdir bare_host (join bare_host "/opt/conda" ["conda-meta"]) = false
  ∧ is_Ok (build_activate bare_host (PosixActivator bare_host)
             (<["PATH" := "/usr/bin"]> ∅) "root")
  ∧ ¬ marker_decides bare_host "/opt/conda"
        (build_activate bare_host (PosixActivator bare_host)
           (<["PATH" := "/usr/bin"]> ∅) "root").
Proof.
  split; [reflexivity|]. split; [reflexivity|].
  split; [eexists; vm_compute; reflexivity|].
  intros [_ Hfail]. destruct (Hfail eq_refl) as [x [Hx | Hx]];
    vm_compute in Hx; discriminate Hx.
Qed.

Lemma location_not_found_iff_witness :
  build_activate posix_host sh in_A "/data"
  = Raise (EnvironmentLocationNotFound "/data")
  ∧ ∀ c, build_activate posix_host sh in_A "/data" ≠ Ok c.
Proof.
  destruct (location_not_found_iff posix_host sh in_A "/data" false)
    as (_ & Hfail & _); [reflexivity|].
  apply Hfail. reflexivity.
Defined.

Lemma yield_commands_order_witness :
  _yield_commands sh
    {| unset_vars := ["B"; "A"]; set_vars := [("PS1", VStr "$ ")];
       export_vars := [("PATH", VStr "/bin"); ("CONDA_SHLVL", VInt 1)];
       deactivate_scripts := ["d.sh"]; activate_scripts := ["a.sh"] |}
  = _yield_commands sh
    {| unset_vars := ["A"; "B"]; set_vars := [("PS1", VStr "$ ")];
       export_vars := [("CONDA_SHLVL", VInt 1); ("PATH", VStr "/bin")];
       deactivate_scripts := ["d.sh"]; activate_scripts := ["a.sh"] |}.
Proof.
  apply (proj2 (yield_commands_order sh _)); simpl.
  - reflexivity.
  - reflexivity.
  - apply perm_swap.
  - apply (bool_decide_unpack _). vm_compute. exact I.
  - reflexivity.
  - apply (bool_decide_unpack _). vm_compute. exact I.
  - apply perm_swap.
Defined.

Lemma activate_defaults_to_base_witness :
  _parse_and_set_args (Some ["activate"; "activate"; EmptyString])
  = Ok {| command := "activate"; stack := Some false;
          env_name_or_prefix := Some "base" |}.
Proof.
  apply (proj2 (activate_defaults_to_base ["activate"; EmptyString])).
  constructor; [right; reflexivity|].
  constructor; [left; reflexivity|]. constructor.
Defined.

Lemma no_prefix_is_no_op_witness :
  build_deactivate posix_host sh (<["CONDA_SHLVL" := "2"]> ∅) = Ok no_op
  ∧ build_reactivate posix_host sh (<["CONDA_SHLVL" := "2"]> ∅) = Ok no_op.
Proof.
  apply (proj1 (no_prefix_is_no_op posix_host sh (<["CONDA_SHLVL" := "2"]> ∅)))
    with (L := 2%Z).
  - left. reflexivity.
  - reflexivity.
Defined.

(** * Further properties *)

(** ** The search-path editor, on its own *)

Section editor_more.

Variable h : Host.
Variable self : Activator.
Variable environ : gmap string string.

Implicit Types (E A B : string) (P l : list string).

(** X1. [index_of_path] returns the least index of an entry that compares
    equal to the path looked for, and [None] exactly when no entry does. *)
Theorem index_of_path_least l (test_path : string) :
  match index_of_path h l test_path with
  | Some i =>
      (∃ x, l !! i = Some x ∧ paths_equal h x test_path = true)
      ∧ ∀ k y, k < i → l !! k = Some y → paths_equal h y test_path = false
  | None => ∀ k y, l !! k = Some y → paths_equal h y test_path = false
  end.
Proof.
  destruct (index_of_path h l test_path) as [i|] eqn:Hi.
  - by apply index_of_path_Some.
  - by apply index_of_path_None.
Qed.

(** X2. Without an old prefix, [_replace_prefix_in_path] is
    [_add_prefix_to_path]: the new directories go to the head of the list,
    with the same result and the same failures. *)
Theorem replace_without_old_is_add B (starting_path_dirs : option (list string)) :
  _replace_prefix_in_path h self environ None (Some B) starting_path_dirs
  = _add_prefix_to_path h self environ B starting_path_dirs.
Proof.
  unfold _replace_prefix_in_path, _add_prefix_to_path. simpl.
  destruct (path_conversion_str h self B) as [B'|e]; [|reflexivity]. simpl.
  destruct (starting_path_list h self environ starting_path_dirs) as [pl|e];
    reflexivity.
Qed.

(** Whatever is replaced, the list returned holds the directories of the
    new prefix as one block, in their order. *)
Lemma insert_slice_block {X} (i : nat) (xs l : list X) :
  ∃ pre rest, insert_slice i xs l = pre ++ xs ++ rest
              ∧ pre = take i l ∧ rest = drop i l.
Proof. by exists (take i l), (drop i l). Qed.

(** X3. Whenever [_replace_prefix_in_path] returns a list for a new prefix
    [B], that list holds all the directories of [B] side by side and in
    their order; so does the list [_add_prefix_to_path] returns. *)
Theorem new_directories_stand_together (old : option string) B
    (starting_path_dirs : option (list string)) (R : list string) :
  _replace_prefix_in_path h self environ old (Some B) starting_path_dirs = Ok R
  ∨ _add_prefix_to_path h self environ B starting_path_dirs = Ok R →
  ∃ pre rest, R = pre ++ _get_path_dirs2 h self (converted h self B) ++ rest.
Proof.
  intros [HR | HR].
  - unfold _replace_prefix_in_path in HR.
    apply bind_Ok_inv in HR as (old' & _ & HR).
    apply bind_Ok_inv in HR as (new' & Hnew & HR).
    apply bind_Ok_inv in HR as (pl & _ & HR).
    apply bind_Ok_inv in HR as ([i left] & _ & HR).
    simpl in Hnew. apply fmap_Ok_inv in Hnew as (B' & HB & ->).
    injection HR as <-. unfold converted. rewrite HB.
    destruct (insert_slice_block i (_get_path_dirs2 h self B') left)
      as (pre & rest & -> & _). eauto.
  - unfold _add_prefix_to_path in HR.
    apply bind_Ok_inv in HR as (B' & HB & HR).
    apply bind_Ok_inv in HR as (pl & _ & HR).
    injection HR as <-. unfold converted. rewrite HB.
    destruct (insert_slice_block 0 (_get_path_dirs2 h self B') pl)
      as (pre & rest & -> & _). eauto.
Qed.

(** On a POSIX host an environment has the one directory [bin_dir]. *)
Lemma dirs2_bin_dir E : on_win h = false → _get_path_dirs2 h self E = [bin_dir self E].
Proof. intros Hw. unfold _get_path_dirs2, bin_dir. by rewrite Hw. Qed.

Lemma remove_step_posix_eq E P :
  on_win h = false →
  remove_step h self (Some E) P
  = Ok (match index_of_path h P (bin_dir self E) with
        | Some i => (i, delete i P)
        | None => (0, P)
        end).
Proof.
  intros Hw. unfold remove_step. rewrite (dirs2_bin_dir E Hw). simpl.
  destruct (index_of_path h P (bin_dir self E)) as [i|] eqn:Hi; [|done].
  unfold del_slice. replace (i `max` (i + 1)) with (S i) by lia.
  by rewrite delete_take_drop.
Qed.

Lemma replace_posix_unfold (old new : option string) P :
  on_win h = false →
  _replace_prefix_in_path h self environ old new (Some P)
  = (remove_step h self old P ≫= λ '(first_idx, path_list),
       match new with
       | Some new_prefix =>
           Ok (insert_slice first_idx (_get_path_dirs2 h self new_prefix) path_list)
       | None => Ok path_list
       end).
Proof.
  intros Hw. apply replace_prefix_unfold.
  - destruct old; simpl; [|done]. by rewrite path_conversion_str_posix.
  - destruct new; simpl; [|done]. by rewrite path_conversion_str_posix.
  - by apply shell_form_posix.
Qed.

Lemma insert_after_delete {X} (i : nat) (x : X) (l : list X) :
  i < length l → insert_slice i [x] (delete i l) = <[i := x]> l.
Proof.
  intros Hlt. unfold insert_slice. rewrite delete_take_drop.
  rewrite take_app_length', drop_app_length' by (rewrite length_take; lia).
  by rewrite insert_take_drop.
Qed.

Lemma replace_posix_found A B P (i : nat) :
  on_win h = false →
  index_of_path h P (bin_dir self A) = Some i →
  _replace_prefix_in_path h self environ (Some A) (Some B) (Some P)
  = Ok (<[i := bin_dir self B]> P).
Proof.
  intros Hw Hi. rewrite replace_posix_unfold, remove_step_posix_eq by done.
  rewrite (dirs2_bin_dir B Hw), Hi. simpl.
  rewrite insert_after_delete; [done|]. by eapply index_of_path_lt.
Qed.

(** X4. On a POSIX host [_replace_prefix_in_path A B] changes one entry in
    place: the first entry that compares equal to the directory of [A]
    becomes the directory of [B] and the list keeps its length; without
    such an entry the directory of [B] goes to the head. *)
Theorem replace_swaps_one_entry A B P :
  on_win h = false →
  _replace_prefix_in_path h self environ (Some A) (Some B) (Some P)
  = Ok (match index_of_path h P (bin_dir self A) with
        | Some i => <[i := bin_dir self B]> P
        | None => bin_dir self B :: P
        end).
Proof.
  intros Hw. rewrite replace_posix_unfold, remove_step_posix_eq by done.
  rewrite (dirs2_bin_dir B Hw).
  destruct (index_of_path h P (bin_dir self A)) as [i|] eqn:Hi; [|done].
  pose proof (index_of_path_lt _ _ _ _ Hi) as Hlt. simpl.
  by rewrite insert_after_delete.
Qed.

(** X5. On a POSIX host [_remove_prefix_from_path E] deletes the first
    entry that compares equal to the directory of [E] and no other: later
    duplicates stay, and a list without such an entry comes back as it
    is. *)
Theorem remove_deletes_first_match E P :
  on_win h = false →
  _remove_prefix_from_path h self environ (Some E) (Some P)
  = Ok (match index_of_path h P (bin_dir self E) with
        | Some i => delete i P
        | None => P
        end).
Proof.
  intros Hw. unfold _remove_prefix_from_path.
  rewrite replace_posix_unfold, remove_step_posix_eq by done.
  by destruct (index_of_path h P (bin_dir self E)).
Qed.

Lemma index_of_inserted P (i : nat) (t : string) :
  i < length P → index_of_path h (take i P) t = None →
  index_of_path h (<[i := t]> P) t = Some i.
Proof.
  intros Hlt Hbefore. rewrite insert_take_drop by done.
  rewrite index_of_path_app, Hbefore. simpl.
  rewrite paths_equal_refl. simpl. f_equal. rewrite length_take. lia.
Qed.

(** X6. On a POSIX host, replacing [A] by [B] and then [B] by [A] gives
    the list back, provided the entry found for [A] is written as the
    directory of [A] and no entry before it compares equal to the
    directory of [B]. *)
Theorem replace_back_and_forth A B P (i : nat) :
  on_win h = false →
  index_of_path h P (bin_dir self A) = Some i →
  P !! i = Some (bin_dir self A) →
  index_of_path h (take i P) (bin_dir self B) = None →
  ∃ P', _replace_prefix_in_path h self environ (Some A) (Some B) (Some P) = Ok P'
        ∧ _replace_prefix_in_path h self environ (Some B) (Some A) (Some P') = Ok P.
Proof.
  intros Hw Hi HPi Hbefore.
  pose proof (index_of_path_lt _ _ _ _ Hi) as Hlt.
  eexists. split.
  { by apply replace_posix_found. }
  rewrite (replace_posix_found B A _ i Hw (index_of_inserted P i _ Hlt Hbefore)).
  f_equal. rewrite list_insert_insert_eq. by apply list_insert_id.
Qed.

End editor_more.

(** ** Strings and dictionaries *)

Lemma app_cons (c : ascii) (s t : string) : String c s +:+ t = String c (s +:+ t).
Proof. reflexivity. Qed.

Lemma app_empty (t : string) : EmptyString +:+ t = t.
Proof. reflexivity. Qed.

(** Two names that differ in a character written out. *)
Ltac str_ne :=
  let Heq := fresh in
  intros Heq; rewrite ?app_cons, ?app_empty in Heq; discriminate Heq.

Lemma split_cons (c : ascii) (s : string) : ∃ w ws, PyStr.split c s = w :: ws.
Proof.
  destruct s as [|d s]; simpl; [by eauto|].
  destruct (bool_decide (d = c)); [by eauto|].
  destruct (PyStr.split c s); eauto.
Qed.

Lemma join_cons (sep x : string) (w : string) (ws : list string) :
  PyStr.join sep (x :: w :: ws) = x +:+ sep +:+ PyStr.join sep (w :: ws).
Proof. reflexivity. Qed.

(** Joining what was split gives the text back. *)
Lemma join_split (c : ascii) (s : string) :
  PyStr.join (String c EmptyString) (PyStr.split c s) = s.
Proof.
  induction s as [|d s IH]; [reflexivity|]. simpl.
  destruct (split_cons c s) as (w & ws & Hs). rewrite Hs in IH |- *.
  case_bool_decide as Hd.
  - subst d. rewrite join_cons, IH. reflexivity.
  - destruct ws as [|w' ws].
    + simpl in IH |- *. by rewrite IH.
    + rewrite join_cons in IH. rewrite join_cons, app_cons. by rewrite IH.
Qed.

(** Splitting a text at the first separator, when the part before it
    holds none. *)
Lemma split_app (c : ascii) (d s : string) :
  has_char c d = false →
  PyStr.split c (d +:+ String c s) = d :: PyStr.split c s.
Proof.
  induction d as [|a d IH]; simpl.
  - intros _. by rewrite bool_decide_eq_true_2.
  - intros [Ha Hd]%orb_false_elim. rewrite Ha, (IH Hd). reflexivity.
Qed.




Lemma join_onto_split (c : ascii) (d s : string) :
  PyStr.join (String c EmptyString) (d :: PyStr.split c s) = d +:+ String c s.
Proof.
  destruct (split_cons c s) as (w & ws & Hs).
  rewrite Hs, join_cons, <- Hs, join_split. reflexivity.
Qed.

Lemma get_update_eq (k : string) (v : value) (d : dict) :
  Dict.get k (Dict.update k v d) = Some v.
Proof.
  induction d as [|[k' v'] d IH]; simpl.
  - by rewrite decide_True.
  - destruct (decide (k' = k)) as [->|Hne]; simpl.
    + by rewrite decide_True.
    + by rewrite decide_False.
Qed.

Lemma get_update_ne (k k' : string) (v : value) (d : dict) :
  k ≠ k' → Dict.get k (Dict.update k' v d) = Dict.get k d.
Proof.
  intros Hne. induction d as [|[k'' v''] d IH]; simpl.
  - by rewrite decide_False.
  - destruct (decide (k'' = k')) as [->|Hne']; simpl.
    + by rewrite !decide_False.
    + destruct (decide (k'' = k)); [done | exact IH].
Qed.

(** Read a name in a dictionary display. *)
Ltac in_list := repeat first [by left | right].

Ltac dict_get :=
  unfold Dict.literal; cbn [foldl fst snd];
  repeat first
    [ rewrite get_update_eq
    | rewrite get_update_ne by str_ne ];
  try reflexivity.

(** ** The state machine, level by level *)

Section machine_more.

Variable h : Host.
Variable self : Activator.
Variable environ : gmap string string.

Lemma starting_path_list_posix (path : string) :
  on_win h = false → environ !! "PATH" = Some path →
  starting_path_list h self environ None = Ok (PyStr.split (os_pathsep h) path).
Proof.
  intros Hw Hpath. unfold starting_path_list, _get_starting_path_list.
  rewrite Hpath, Hw. simpl. by apply shell_form_posix.
Qed.

Lemma add_prefix_posix (E path : string) :
  on_win h = false → environ !! "PATH" = Some path →
  _add_prefix_to_path h self environ E None
  = Ok (bin_dir self E :: PyStr.split (os_pathsep h) path).
Proof.
  intros Hw Hpath. unfold _add_prefix_to_path.
  rewrite path_conversion_str_posix by done. rewrite bind_Ok.
  rewrite (starting_path_list_posix path Hw Hpath). rewrite bind_Ok.
  by rewrite dirs2_bin_dir.
Qed.

Lemma activate_scripts_posix (E : string) :
  on_win h = false → is_Ok (_get_activate_scripts h self E).
Proof. intros Hw. unfold _get_activate_scripts. eexists. by apply shell_form_posix. Qed.

Lemma deactivate_scripts_posix (E : string) :
  on_win h = false → is_Ok (_get_deactivate_scripts h self E).
Proof. intros Hw. unfold _get_deactivate_scripts. eexists. by apply shell_form_posix. Qed.

(** X7. At level 0 the stacking flag changes nothing: [build_stack] gives
    what [build_activate] gives, the failures included. *)
Theorem stack_at_level_zero_is_activate (target : string) :
  conda_shlvl environ = Ok 0%Z →
  build_stack h self environ target = build_activate h self environ target.
Proof.
  intros HL. unfold build_stack, build_activate, _build_activate_stack.
  destruct (resolve_prefix h target) as [prefix|e]; [|reflexivity]. simpl.
  rewrite HL. simpl. rewrite andb_false_r. reflexivity.
Qed.

(** What [build_activate] returns from level 0. *)
Lemma activate_zero_inv (target prefix : string) (c : cmds_dict) :
  resolve_prefix h target = Ok prefix →
  conda_shlvl environ = Ok 0%Z →
  build_activate h self environ target = Ok c →
  ∃ acs new_path py exe,
    _get_activate_scripts h self prefix = Ok acs
    ∧ _add_prefix_to_path h self environ prefix None = Ok new_path
    ∧ c = {| unset_vars := [];
             set_vars := prompt_set_vars h self environ
                           (_prompt_modifier h prefix (_default_env h prefix));
             export_vars := _build_activate_shell_custom self (Dict.literal
               [("CONDA_PYTHON_EXE", VStr py);
                ("CONDA_EXE", VStr exe);
                ("PATH", VStr (PyStr.join (pathsep_join self) new_path));
                ("CONDA_PREFIX", VStr prefix);
                ("CONDA_SHLVL", VInt (0 + 1));
                ("CONDA_DEFAULT_ENV", VStr (_default_env h prefix));
                ("CONDA_PROMPT_MODIFIER",
                 VStr (_prompt_modifier h prefix (_default_env h prefix)))]);
             deactivate_scripts := [];
             activate_scripts := acs |}.
Proof.
  intros Hres HL. unfold build_activate, _build_activate_stack.
  rewrite Hres, HL. simpl. rewrite andb_false_r.
  intros Hc.
  apply bind_Ok_inv in Hc as (acs & Hacs & Hc).
  apply bind_Ok_inv in Hc as (new_path & Hpath & Hc).
  apply bind_Ok_inv in Hc as (py & _ & Hc).
  apply bind_Ok_inv in Hc as (exe & _ & Hc).
  injection Hc as <-. by exists acs, new_path, py, exe.
Qed.

(** X8. From level 0, [build_activate] starts the stack: nothing is unset,
    no deactivate script is run, the level exported is 1, the prefix and
    its label are exported, the path exported is the one
    [_add_prefix_to_path] computes and the activate scripts are those of
    the prefix; a stale [CONDA_PREFIX] in the environment plays no part.
    On a POSIX host with [PATH] set the activation goes through. *)
Theorem activate_at_level_zero (target prefix : string) :
  resolve_prefix h target = Ok prefix →
  conda_shlvl environ = Ok 0%Z →
  custom_keeps self →
  (∀ c, build_activate h self environ target = Ok c →
     unset_vars c = [] ∧ deactivate_scripts c = []
     ∧ _get_activate_scripts h self prefix = Ok (activate_scripts c)
     ∧ Dict.get "CONDA_SHLVL" (export_vars c) = Some (VInt 1)
     ∧ Dict.get "CONDA_PREFIX" (export_vars c) = Some (VStr prefix)
     ∧ Dict.get "CONDA_DEFAULT_ENV" (export_vars c)
       = Some (VStr (_default_env h prefix))
     ∧ ∃ new_path,
         _add_prefix_to_path h self environ prefix None = Ok new_path
         ∧ Dict.get "PATH" (export_vars c)
           = Some (VStr (PyStr.join (pathsep_join self) new_path)))
  ∧ (on_win h = false → is_Some (environ !! "PATH") →
     is_Ok (build_activate h self environ target)).
Proof.
  intros Hres HL Hkeeps. split.
  - intros c Hc.
    destruct (activate_zero_inv target prefix c Hres HL Hc)
      as (acs & new_path & py & exe & Hacs & Hpath & ->). simpl.
    split; [done|]. split; [done|]. split; [done|].
    rewrite !Hkeeps by str_ne.
    split; [dict_get|]. split; [dict_get|]. split; [dict_get|].
    exists new_path. split; [done|]. dict_get.
  - intros Hw [path Hpath]. unfold build_activate, _build_activate_stack.
    rewrite Hres, HL. simpl. rewrite andb_false_r.
    destruct (activate_scripts_posix prefix Hw) as [acs ->]. simpl.
    rewrite (add_prefix_posix prefix path Hw Hpath). simpl.
    rewrite !path_conversion_str_posix by done. simpl. by eexists.
Qed.

(** What [build_deactivate] returns at level 1. *)
Lemma deactivate_one_inv (E : string) (c : cmds_dict) :
  environ !! "CONDA_PREFIX" = Some E → E ≠ EmptyString →
  conda_shlvl environ = Ok 1%Z →
  build_deactivate h self environ = Ok c →
  ∃ ds new_path,
    _get_deactivate_scripts h self E = Ok ds
    ∧ _remove_prefix_from_path h self environ (Some E) None = Ok new_path
    ∧ c = {| unset_vars := ["CONDA_PREFIX"; "CONDA_DEFAULT_ENV";
                            "CONDA_PYTHON_EXE"; "CONDA_PROMPT_MODIFIER"];
             set_vars := prompt_set_vars h self environ EmptyString;
             export_vars := Dict.literal
               [("PATH", VStr (PyStr.join (pathsep_join self) new_path));
                ("CONDA_SHLVL", VInt (1 - 1))];
             deactivate_scripts := ds;
             activate_scripts := [] |}.
Proof.
  intros HE Hne HL. unfold build_deactivate. rewrite HL, HE. simpl.
  destruct E as [|a E]; [done|]. simpl.
  intros Hc.
  apply bind_Ok_inv in Hc as (ds & Hds & Hc).
  apply bind_Ok_inv in Hc as (new_path & Hpath & Hc).
  injection Hc as <-. by exists ds, new_path.
Qed.

(** What [build_deactivate] returns above level 1. *)
Lemma deactivate_more_inv (E : string) (L : Z) (c : cmds_dict) :
  environ !! "CONDA_PREFIX" = Some E → E ≠ EmptyString →
  conda_shlvl environ = Ok L → (1 < L)%Z →
  build_deactivate h self environ = Ok c →
  ∃ prior ds new_path acs,
    environ !! CONDA_PREFIX_ (L - 1) = Some prior
    ∧ _get_deactivate_scripts h self E = Ok ds
    ∧ _get_activate_scripts h self prior = Ok acs
    ∧ (if bool_decide (is_Some (environ !! CONDA_STACKED_ L))
       then _remove_prefix_from_path h self environ (Some E) None
       else _replace_prefix_in_path h self environ (Some E) (Some prior) None)
      = Ok new_path
    ∧ c = {| unset_vars :=
               if bool_decide (is_Some (environ !! CONDA_STACKED_ L))
               then [CONDA_PREFIX_ (L - 1); CONDA_STACKED_ L]
               else [CONDA_PREFIX_ (L - 1)];
             set_vars := prompt_set_vars h self environ
                           (_prompt_modifier h prior (_default_env h prior));
             export_vars := Dict.literal
               [("PATH", VStr (PyStr.join (pathsep_join self) new_path));
                ("CONDA_SHLVL", VInt (L - 1));
                ("CONDA_PREFIX", VStr prior);
                ("CONDA_DEFAULT_ENV", VStr (_default_env h prior));
                ("CONDA_PROMPT_MODIFIER",
                 VStr (_prompt_modifier h prior (_default_env h prior)))];
             deactivate_scripts := ds;
             activate_scripts := acs |}.
Proof.
  intros HE Hne HL Hlt. unfold build_deactivate. rewrite HL, HE. simpl.
  destruct E as [|a E]; [done|]. simpl.
  rewrite (proj2 (Z.ltb_ge L 1)) by lia.
  rewrite (proj2 (Z.eqb_neq L 1)) by lia.
  fold (CONDA_PREFIX_ (L - 1)). fold (CONDA_STACKED_ L).
  intros Hc.
  apply bind_Ok_inv in Hc as (ds & Hds & Hc).
  destruct (environ !! CONDA_PREFIX_ (L - 1)) as [prior|]; [|done].
  apply bind_Ok_inv in Hc as ([new_path uv] & Hpath & Hc).
  apply bind_Ok_inv in Hc as (acs & Hacs & Hc).
  injection Hc as <-. exists prior, ds, new_path, acs.
  destruct (bool_decide (is_Some (environ !! CONDA_STACKED_ L)));
    apply bind_Ok_inv in Hpath as (p & Hp & [= <- <-]); done.
Qed.

(** X9. [build_deactivate] pops one level. At a level [L ≥ 1] in a prefix
    [E], the instruction set it returns exports the level [L - 1] and
    runs the deactivate scripts of [E]. From level 1 it unsets the four
    variables of the environment, exports no prefix and runs no activate
    script. From a higher level it exports the prefix stored for the
    level below, runs its activate scripts and unsets the bookkeeping of
    the level: [CONDA_PREFIX_(L-1)], and [CONDA_STACKED_L] when that
    variable is set. *)
Theorem deactivate_pops_one_level (E : string) (L : Z) (c : cmds_dict) :
  environ !! "CONDA_PREFIX" = Some E → E ≠ EmptyString →
  conda_shlvl environ = Ok L → (1 ≤ L)%Z →
  build_deactivate h self environ = Ok c →
  Dict.get "CONDA_SHLVL" (export_vars c) = Some (VInt (L - 1))
  ∧ _get_deactivate_scripts h self E = Ok (deactivate_scripts c)
  ∧ if (L =? 1)%Z then
      unset_vars c = ["CONDA_PREFIX"; "CONDA_DEFAULT_ENV";
                      "CONDA_PYTHON_EXE"; "CONDA_PROMPT_MODIFIER"]
      ∧ Dict.get "CONDA_PREFIX" (export_vars c) = None
      ∧ activate_scripts c = []
    else
      ∃ prior,
        environ !! CONDA_PREFIX_ (L - 1) = Some prior
        ∧ Dict.get "CONDA_PREFIX" (export_vars c) = Some (VStr prior)
        ∧ _get_activate_scripts h self prior = Ok (activate_scripts c)
        ∧ CONDA_PREFIX_ (L - 1) ∈ unset_vars c
        ∧ (CONDA_STACKED_ L ∈ unset_vars c
           ↔ is_Some (environ !! CONDA_STACKED_ L)).
Proof.
  intros HE Hne HL Hle Hc.
  destruct (Z.eqb_spec L 1) as [->|Hne1].
  - destruct (deactivate_one_inv E c HE Hne HL Hc) as (ds & np & Hds & _ & ->).
    simpl. repeat split; try done; dict_get.
  - destruct (deactivate_more_inv E L c HE Hne HL ltac:(lia) Hc)
      as (prior & ds & np & acs & Hprior & Hds & Hacs & _ & ->). simpl.
    split; [dict_get|]. split; [done|].
    exists prior. split; [done|]. split; [dict_get|]. split; [done|].
    case_bool_decide as Hst.
    + split; [by left|]. split; [done|]. intros _. right. by left.
    + split; [by left|]. split; [|done].
      intros Hin%list_elem_of_singleton. exfalso. revert Hin.
      unfold CONDA_STACKED_, CONDA_PREFIX_. str_ne.
Qed.

(** X10. Activating the environment of the level below steps back down: at
    a level [L > 0], for a target that stands for the prefix stored in
    [CONDA_PREFIX_(L-1)] and is not the current prefix, [build_activate]
    and [build_stack] return what [build_deactivate] returns, once the
    activate scripts of the target have been listed. *)
Theorem activating_previous_is_deactivate (target P : string) (L : Z)
    (stacking : bool) :
  resolve_prefix h target = Ok P →
  conda_shlvl environ = Ok L → (0 < L)%Z →
  environ !! "CONDA_PREFIX" ≠ Some P →
  environ !! CONDA_PREFIX_ (L - 1) = Some P →
  is_Ok (_get_activate_scripts h self P) →
  _build_activate_stack h self environ target stacking
  = build_deactivate h self environ.
Proof.
  intros Hres HL Hpos Hcur Hprev [acs Hacs]. unfold _build_activate_stack.
  rewrite Hres, HL. simpl. fold (CONDA_PREFIX_ (L - 1)).
  rewrite bool_decide_eq_false_2 by done. simpl.
  rewrite Hacs. simpl.
  rewrite (proj2 (Z.eqb_neq L 0)) by lia.
  by rewrite bool_decide_eq_true_2.
Qed.

(** What [_build_activate_stack] returns when it pushes a level on top of
    another one. *)
Lemma push_inv (target P : string) (L : Z) (stacking : bool) (c : cmds_dict) :
  resolve_prefix h target = Ok P →
  conda_shlvl environ = Ok L → L ≠ 0%Z →
  ¬ (environ !! "CONDA_PREFIX" = Some P ∧ (0 < L)%Z) →
  environ !! CONDA_PREFIX_ (L - 1) ≠ Some P →
  _build_activate_stack h self environ target stacking = Ok c →
  ∃ acs ds new_path,
    _get_activate_scripts h self P = Ok acs
    ∧ (if stacking
       then ds = [] ∧ _add_prefix_to_path h self environ P None = Ok new_path
       else ∃ old, environ !! "CONDA_PREFIX" = Some old
                   ∧ _get_deactivate_scripts h self old = Ok ds
                   ∧ _replace_prefix_in_path h self environ
                       (Some old) (Some P) None = Ok new_path)
    ∧ c = {| unset_vars := [];
             set_vars := prompt_set_vars h self environ
                           (_prompt_modifier h P (_default_env h P));
             export_vars := _build_activate_shell_custom self (Dict.literal
               ([("PATH", VStr (PyStr.join (pathsep_join self) new_path));
                 ("CONDA_PREFIX", VStr P);
                 (CONDA_PREFIX_ L, value_of_opt (environ !! "CONDA_PREFIX"));
                 ("CONDA_SHLVL", VInt (L + 1));
                 ("CONDA_DEFAULT_ENV", VStr (_default_env h P));
                 ("CONDA_PROMPT_MODIFIER",
                  VStr (_prompt_modifier h P (_default_env h P)))]
                ++ if stacking then [(CONDA_STACKED_ (L + 1), VStr "true")]
                   else []));
             deactivate_scripts := ds;
             activate_scripts := acs |}.
Proof.
  intros Hres HL Hne Hcur Hprev. unfold _build_activate_stack.
  rewrite Hres, HL. simpl. fold (CONDA_PREFIX_ (L - 1)).
  assert (bool_decide (environ !! "CONDA_PREFIX" = Some P) && (0 <? L)%Z = false)
    as ->.
  { apply andb_false_iff. case_bool_decide; [|by left].
    right. apply Z.ltb_ge. destruct (Z.ltb_spec 0 L); [|done]. by destruct Hcur. }
  intros Hc. apply bind_Ok_inv in Hc as (acs & Hacs & Hc).
  rewrite (proj2 (Z.eqb_neq L 0)) in Hc by done.
  rewrite bool_decide_eq_false_2 in Hc by done.
  destruct stacking.
  - apply bind_Ok_inv in Hc as (new_path & Hpath & Hc).
    injection Hc as <-. by exists acs, [], new_path.
  - apply bind_Ok_inv in Hc as (new_path & Hpath & Hc).
    apply bind_Ok_inv in Hc as (ds & Hds & Hc).
    injection Hc as <-. exists acs, ds, new_path. split; [done|].
    destruct (environ !! "CONDA_PREFIX") as [old|]; [|done]. eauto.
Qed.

(** X11. Pushing a level. At a level [L] other than 0, for a target that
    is neither the current environment nor the one of the level below,
    the instruction set of [build_activate] or [build_stack] unsets
    nothing, exports the level [L + 1] and the new prefix, and stores the
    current prefix under [CONDA_PREFIX_L]. With stacking it exports the
    marker [CONDA_STACKED_(L+1)], adds the directories in front of the
    path and runs no deactivate script; without, there is no marker, the
    current prefix is replaced in the path and its deactivate scripts
    run. *)
Theorem push_exports_next_level (target P : string) (L : Z) (stacking : bool)
    (c : cmds_dict) :
  resolve_prefix h target = Ok P →
  conda_shlvl environ = Ok L → L ≠ 0%Z →
  ¬ (environ !! "CONDA_PREFIX" = Some P ∧ (0 < L)%Z) →
  environ !! CONDA_PREFIX_ (L - 1) ≠ Some P →
  custom_keeps self →
  _build_activate_stack h self environ target stacking = Ok c →
  unset_vars c = []
  ∧ _get_activate_scripts h self P = Ok (activate_scripts c)
  ∧ Dict.get "CONDA_SHLVL" (export_vars c) = Some (VInt (L + 1))
  ∧ Dict.get "CONDA_PREFIX" (export_vars c) = Some (VStr P)
  ∧ Dict.get (CONDA_PREFIX_ L) (export_vars c)
    = Some (value_of_opt (environ !! "CONDA_PREFIX"))
  ∧ if stacking then
      Dict.get (CONDA_STACKED_ (L + 1)) (export_vars c) = Some (VStr "true")
      ∧ deactivate_scripts c = []
      ∧ ∃ new_path,
          _add_prefix_to_path h self environ P None = Ok new_path
          ∧ Dict.get "PATH" (export_vars c)
            = Some (VStr (PyStr.join (pathsep_join self) new_path))
    else
      Dict.get (CONDA_STACKED_ (L + 1)) (export_vars c) = None
      ∧ ∃ old new_path,
          environ !! "CONDA_PREFIX" = Some old
          ∧ _get_deactivate_scripts h self old = Ok (deactivate_scripts c)
          ∧ _replace_prefix_in_path h self environ (Some old) (Some P) None
            = Ok new_path
          ∧ Dict.get "PATH" (export_vars c)
            = Some (VStr (PyStr.join (pathsep_join self) new_path)).
Proof.
  intros Hres HL Hne Hcur Hprev Hkeeps Hc.
  destruct (push_inv target P L stacking c Hres HL Hne Hcur Hprev Hc)
    as (acs & ds & new_path & Hacs & Hbranch & ->). simpl.
  unfold CONDA_PREFIX_, CONDA_STACKED_ in *.
  split; [done|]. split; [done|].
  rewrite !Hkeeps by str_ne.
  destruct stacking; simpl "++".
  - destruct Hbranch as [-> Hpath].
    split; [dict_get|]. split; [dict_get|]. split; [dict_get|].
    split; [dict_get|]. split; [done|]. exists new_path. split; [done|]. dict_get.
  - destruct Hbranch as (old & Hold & Hds & Hpath).
    split; [dict_get|]. split; [dict_get|]. split; [dict_get|].
    split; [dict_get|]. exists old, new_path. repeat split; done.
Qed.

Lemma prompt_set_vars_off (modifier : string) :
  changeps1 h = false → prompt_set_vars h self environ modifier = [].
Proof. intros Hoff. unfold prompt_set_vars. by rewrite Hoff. Qed.

(** Take apart a hypothesis that says a sequence of steps returned. *)
Ltac returned :=
  repeat match goal with
    | H : (_ ≫= _) = Ok _ |- _ => apply bind_Ok_inv in H as (? & ? & H)
    | H : (let '(_, _) := ?x in _) = Ok _ |- _ => destruct x
    | H : (if ?b then _ else _) = Ok _ |- _ => destruct b
    | H : match ?x with _ => _ end = Ok _ |- _ => destruct x
    | H : Raise _ = Ok _ |- _ => discriminate H
    | H : Ok _ = Ok _ |- _ => injection H as <-
    end.

(** X12. With the prompt display disabled ([changeps1] off) no builder
    sets a local variable: the instruction sets of [build_deactivate],
    [build_reactivate], [build_activate] and [build_stack] have no
    [set_vars]. *)
Theorem prompt_disabled_sets_nothing (target : string) (stacking : bool)
    (c : cmds_dict) :
  changeps1 h = false →
  build_deactivate h self environ = Ok c
  ∨ build_reactivate h self environ = Ok c
  ∨ _build_activate_stack h self environ target stacking = Ok c →
  set_vars c = [].
Proof.
  intros Hoff.
  assert (∀ c, build_deactivate h self environ = Ok c → set_vars c = []) as Hd.
  { clear c. intros c Hc. unfold build_deactivate in Hc.
    returned; simpl; by rewrite ?prompt_set_vars_off. }
  assert (∀ c, build_reactivate h self environ = Ok c → set_vars c = []) as Hr.
  { clear c. intros c Hc. unfold build_reactivate in Hc.
    returned; simpl; by rewrite ?prompt_set_vars_off. }
  intros [Hc | [Hc | Hc]]; [by apply Hd | by apply Hr |].
  unfold _build_activate_stack in Hc.
  apply bind_Ok_inv in Hc as (prefix & _ & Hc).
  apply bind_Ok_inv in Hc as (L & _ & Hc).
  destruct (_ && _); [by apply Hr|].
  apply bind_Ok_inv in Hc as (acs & _ & Hc).
  destruct (L =? 0)%Z; [returned; simpl; by rewrite prompt_set_vars_off|].
  destruct (bool_decide _); [by apply Hd|].
  destruct stacking; returned; simpl; by rewrite prompt_set_vars_off.
Qed.

End machine_more.

(** ** Levels written and read *)

Lemma digit_not_space (c : ascii) :
  is_Some (PyStr.digit_of c) → PyStr.isspace c = false.
Proof.
  unfold PyStr.digit_of, PyStr.isspace. intros [d Hd].
  destruct (48 <=? nat_of_ascii c) eqn:H1; [|done].
  destruct (nat_of_ascii c <=? 57) eqn:H2; [|done].
  apply Nat.leb_le in H1, H2.
  repeat match goal with
    | |- context [?a <=? ?b] => destruct (Nat.leb_spec a b); try lia
    | |- context [?a =? ?b] => destruct (Nat.eqb_spec a b); try lia
    end; done.
Qed.

Lemma digit_not_sign (c : ascii) (X : Type) (a b d : X) :
  is_Some (PyStr.digit_of c) →
  match c with
  | "+"%char => a
  | "-"%char => b
  | _ => d
  end = d.
Proof.
  intros [n Hn].
  destruct c as [[] [] [] [] [] [] [] []]; try reflexivity; discriminate Hn.
Qed.

Lemma rstrip_no_space (s : string) :
  (∀ c, c ∈ list_ascii_of_string s → PyStr.isspace c = false) →
  PyStr.rstrip s = s.
Proof.
  induction s as [|c s IH]; [done|]. simpl. intros Hall.
  rewrite IH by (intros d Hd; apply Hall; by right).
  destruct s; [|done]. by rewrite Hall by left.
Qed.

Lemma all_digits_chars (s : string) (c : ascii) :
  all_digits s = true → c ∈ list_ascii_of_string s → is_Some (PyStr.digit_of c).
Proof.
  induction s as [|d s IH]; simpl; [by intros _ ?%elem_of_nil|].
  intros [Hd Hs]%andb_prop [->|Hc]%elem_of_cons; [|by apply IH].
  by apply bool_decide_eq_true in Hd.
Qed.

(** White space is stripped from neither end of a number. *)
Lemma strip_digits (s : string) : all_digits s = true → PyStr.strip s = s.
Proof.
  intros Hs. unfold PyStr.strip.
  assert (PyStr.lstrip s = s) as ->.
  { destruct s as [|c s]; [done|]. simpl.
    rewrite digit_not_space; [done|]. apply (all_digits_chars _ _ Hs). by left. }
  apply rstrip_no_space. intros c Hc.
  by apply digit_not_space, (all_digits_chars s).
Qed.

Lemma strip_minus_digits (s : string) :
  all_digits s = true → PyStr.strip ("-" +:+ s) = "-" +:+ s.
Proof.
  intros Hs. unfold PyStr.strip. rewrite app_cons, app_empty.
  change (PyStr.lstrip (String "-" s)) with (String "-"%char s).
  apply rstrip_no_space. intros c [->|Hc]%elem_of_cons; [done|].
  by apply digit_not_space, (all_digits_chars s).
Qed.

Lemma digit_of_pretty_char (m : N) :
  (m < 10)%N → PyStr.digit_of (pretty_N_char m) = Some (Z.of_N m).
Proof.
  intros Hm. rewrite <- (N2Nat.id m).
  assert (N.to_nat m < 10) as Hk by lia. revert Hk.
  generalize (N.to_nat m). intros k Hk.
  do 10 (destruct k as [|k]; [reflexivity|]). lia.
Qed.

Lemma pretty_N_go_digits (x : N) (s : string) :
  all_digits s = true → all_digits (pretty_N_go x s) = true.
Proof.
  revert s. induction (N.lt_wf_0 x) as [x _ IH]; intros s Hs.
  destruct (decide (x = 0)%N) as [->|Hx]; [by rewrite pretty_N_go_0|].
  rewrite pretty_N_go_step by lia. apply IH; [apply N.div_lt; lia|].
  simpl. rewrite Hs, andb_true_r. apply bool_decide_eq_true.
  rewrite digit_of_pretty_char; [done|]. by apply N.mod_lt.
Qed.

(** The digits printed for [x] are read as [x]. *)
Lemma int_digits_pretty (x : N) (prev : bool) (s : string) :
  (0 < x)%N →
  PyStr.int_digits 0 prev (pretty_N_go x s)
  = PyStr.int_digits (Z.of_N x) true s.
Proof.
  revert prev s. induction (N.lt_wf_0 x) as [x _ IH]; intros prev s Hx.
  rewrite pretty_N_go_step by done.
  pose proof (N.mod_lt x 10 ltac:(done)) as Hmod.
  pose proof (N.div_mod x 10 ltac:(done)) as Hdiv.
  destruct (decide (x `div` 10 = 0)%N) as [H0|Hpos].
  - rewrite H0, pretty_N_go_0. simpl.
    rewrite digit_of_pretty_char by done. f_equal. lia.
  - rewrite IH; [|apply N.div_lt; lia|lia]. simpl.
    rewrite digit_of_pretty_char by done. f_equal. lia.
Qed.

Lemma pretty_N_go_cons (x : N) : (0 < x)%N → ∃ c r, pretty_N_go x EmptyString = String c r.
Proof.
  intros Hx. destruct (pretty_N_go x EmptyString) as [|c r] eqn:Hp; [|by eauto].
  pose proof (int_digits_pretty x false EmptyString Hx) as Hd.
  rewrite Hp in Hd. discriminate Hd.
Qed.

(** [int(str(n)) = n] *)
Lemma int_pretty (n : Z) : PyStr.int (pretty n) = Ok n.
Proof.
  assert (∀ p, all_digits (pretty_N_go (Npos p) EmptyString) = true) as Hdig
    by (intros p; by apply pretty_N_go_digits).
  destruct n as [|p|p]; [reflexivity|..];
    unfold pretty, pretty_Z, pretty, pretty_positive, pretty, pretty_N; simpl;
    unfold PyStr.int.
  - rewrite strip_digits by done.
    destruct (pretty_N_go_cons (Npos p) ltac:(lia)) as (c & r & Hp).
    pose proof (Hdig p) as Hc. rewrite Hp in Hc. simpl in Hc.
    apply andb_prop in Hc as [Hc%bool_decide_eq_true _].
    pose proof (int_digits_pretty (Npos p) false EmptyString ltac:(lia)) as Hd.
    rewrite Hp in Hd |- *. rewrite digit_not_sign by done. by rewrite Hd.
  - rewrite strip_minus_digits by done.
    change ("-" +:+ ?r) with (String "-"%char r). cbn beta iota.
    rewrite int_digits_pretty by lia. reflexivity.
Qed.

Lemma strip_pretty (n : Z) :
  PyStr.strip (pretty n) = pretty n ∧ PyStr.is_empty (pretty n) = false.
Proof.
  assert (∀ p, all_digits (pretty_N_go (Npos p) EmptyString) = true) as Hdig
    by (intros p; by apply pretty_N_go_digits).
  destruct n as [|p|p]; [done|..];
    unfold pretty, pretty_Z, pretty, pretty_positive, pretty, pretty_N; simpl.
  - split; [by apply strip_digits|].
    by destruct (pretty_N_go_cons (Npos p) ltac:(lia)) as (c & r & ->).
  - split; [by apply strip_minus_digits|]. reflexivity.
Qed.

(** A level the engine has exported, as the text [str(n)], is the level
    the next call reads. *)
Lemma conda_shlvl_str (environ : gmap string string) (n : Z) :
  environ !! "CONDA_SHLVL" = Some (str (VInt n)) → conda_shlvl environ = Ok n.
Proof.
  intros Henv. unfold conda_shlvl. rewrite Henv. simpl.
  destruct (strip_pretty n) as [-> ->]. apply int_pretty.
Qed.

(** ** Going up a level and down again *)

Section round_trips.

Variable h : Host.
Variable self : Activator.

Lemma path_conversion_opt_posix (o : option string) :
  on_win h = false → path_conversion_opt h self o = Ok o.
Proof.
  intros Hw. destruct o as [p|]; simpl; [|done].
  by rewrite path_conversion_str_posix.
Qed.

(** On a POSIX host, when [PATH] begins with the directory of [E], the
    removal gives the entries that follow it. *)
Lemma remove_leading_posix (environ : gmap string string) (E path : string) :
  on_win h = false →
  has_char (os_pathsep h) (bin_dir self E) = false →
  environ !! "PATH"
  = Some (bin_dir self E +:+ String (os_pathsep h) path) →
  _remove_prefix_from_path h self environ (Some E) None
  = Ok (PyStr.split (os_pathsep h) path).
Proof.
  intros Hw Hsep Hpath. unfold _remove_prefix_from_path, _replace_prefix_in_path.
  rewrite !path_conversion_opt_posix by done. rewrite !bind_Ok.
  rewrite (starting_path_list_posix h self environ _ Hw Hpath). rewrite bind_Ok.
  rewrite split_app by done.
  rewrite remove_step_posix_eq by done. simpl.
  by rewrite paths_equal_refl.
Qed.

(** X13. Activation and deactivation undo each other on the text of
    [PATH]. On a POSIX host, for a shell that joins the path with the
    separator of the host, and a prefix [E] whose directory holds no
    separator: when [build_activate] has run at level 0 and the shell has
    taken over the [PATH], [CONDA_PREFIX] and [CONDA_SHLVL] it exports,
    [build_deactivate] exports the [PATH] of before, character for
    character, and the level 0. *)
Theorem activate_then_deactivate_restores_PATH
    (environ environ' : gmap string string) (target E path : string)
    (c : cmds_dict) :
  on_win h = false →
  pathsep_join self = String (os_pathsep h) EmptyString →
  has_char (os_pathsep h) (bin_dir self E) = false →
  E ≠ EmptyString →
  custom_keeps self →
  resolve_prefix h target = Ok E →
  conda_shlvl environ = Ok 0%Z →
  environ !! "PATH" = Some path →
  build_activate h self environ target = Ok c →
  exported_to c environ' "PATH" →
  exported_to c environ' "CONDA_PREFIX" →
  exported_to c environ' "CONDA_SHLVL" →
  ∃ c', build_deactivate h self environ' = Ok c'
        ∧ Dict.get "PATH" (export_vars c') = Some (VStr path)
        ∧ Dict.get "CONDA_SHLVL" (export_vars c') = Some (VInt 0).
Proof.
  intros Hw Hjoin Hsep Hne Hkeeps Hres HL Hpath Hc Hxpath Hxprefix Hxlvl.
  destruct (activate_zero_inv h self environ target E c Hres HL Hc)
    as (acs & new_path & py & exe & _ & Hadd & ->).
  rewrite (add_prefix_posix h self environ E path Hw Hpath) in Hadd.
  injection Hadd as <-.
  assert (conda_shlvl environ' = Ok 1%Z) as HL'.
  { apply conda_shlvl_str. rewrite Hxlvl. simpl.
    rewrite Hkeeps by str_ne. dict_get. }
  unfold exported_to in Hxpath, Hxprefix. simpl in Hxpath, Hxprefix.
  rewrite Hkeeps in Hxpath, Hxprefix by str_ne.
  assert (environ' !! "CONDA_PREFIX" = Some E) as HE'
    by (rewrite Hxprefix; dict_get).
  assert (environ' !! "PATH"
          = Some (bin_dir self E +:+ String (os_pathsep h) path)) as Hpath'.
  { rewrite Hxpath. rewrite <- join_onto_split, <- Hjoin. dict_get. }
  unfold build_deactivate. rewrite HL', HE'. simpl.
  destruct E as [|a E]; [done|]. simpl.
  destruct (deactivate_scripts_posix h self (String a E) Hw) as [ds ->]. simpl.
  rewrite (remove_leading_posix environ' (String a E) path Hw Hsep Hpath'). simpl.
  eexists. split; [reflexivity|]. simpl.
  split; [|dict_get]. rewrite Hjoin, join_split. dict_get.
Qed.

(** Membership in a list written out. *)
(** X14. A level the engine exports is the level the next call reads: when
    the environment holds [CONDA_SHLVL] as an instruction set exports it,
    whatever the integer, the state reader returns that integer. *)
Theorem exported_level_reads_back (environ' : gmap string string)
    (c : cmds_dict) (n : Z) :
  Dict.get "CONDA_SHLVL" (export_vars c) = Some (VInt n) →
  exported_to c environ' "CONDA_SHLVL" →
  conda_shlvl environ' = Ok n.
Proof.
  intros Hget Hexp. apply conda_shlvl_str.
  unfold exported_to in Hexp. by rewrite Hexp, Hget.
Qed.




End round_trips.

(** ** The front end, further *)

Lemma list_index_None (x : string) (l : list string) :
  x ∉ l → list_index x l = None.
Proof.
  induction l as [|y l IH]; [done|]. intros Hin. simpl.
  destruct (decide (y = x)) as [-> | _]; [by destruct Hin; left|].
  rewrite IH; [done|]. intros ?. apply Hin. by right.
Qed.

Lemma list_index_Some (x : string) (l : list string) :
  x ∈ l → is_Some (list_index x l).
Proof.
  induction l as [|y l IH]; [by intros ?%elem_of_nil|]. intros Hin. simpl.
  destruct (decide (y = x)) as [-> | Hne]; [by eexists|].
  apply elem_of_cons in Hin as [-> | Hin]; [done|].
  destruct (IH Hin) as [i ->]. by eexists.
Qed.

Lemma help_requested_iff (arguments : list string) :
  Exists (λ arg, arg ∈ help_flags) arguments →
  (length arguments =? length (filter (λ arg, arg ∉ help_flags) arguments))
  = false.
Proof.
  intros (arg & Hin & Hhelp)%Exists_exists. apply Nat.eqb_neq.
  pose proof (length_filter_lt (λ arg, arg ∉ help_flags) arguments arg Hin
                ltac:(by intros Hn)). lia.
Qed.

(** X17. A help flag takes precedence. When one of [-h], [--help], [/?]
    stands anywhere among the arguments, [_parse_and_set_args] raises the
    help of the command, whatever the other arguments are; with a word
    that is no command it raises a [KeyError], not the [ArgumentError] of
    an invalid command. *)
Theorem help_flag_wins (command : string) (arguments : list string) :
  command ≠ EmptyString →
  Exists (λ arg, arg ∈ help_flags) arguments →
  (command = "activate" →
   _parse_and_set_args (Some (command :: arguments)) = Raise ActivateHelp)
  ∧ (command = "deactivate" →
     _parse_and_set_args (Some (command :: arguments)) = Raise DeactivateHelp)
  ∧ (command ∈ ["hook"; "reactivate"] →
     _parse_and_set_args (Some (command :: arguments))
     = Raise (GenericHelp command))
  ∧ (command ∉ commands →
     _parse_and_set_args (Some (command :: arguments))
     = Raise (KeyError command)).
Proof.
  intros Hne Hhelp.
  assert (_parse_and_set_args (Some (command :: arguments))
          = if decide (command = "activate") then Raise ActivateHelp
            else if decide (command = "deactivate") then Raise DeactivateHelp
            else if decide (command = "hook") then Raise (GenericHelp "hook")
            else if decide (command = "reactivate")
                 then Raise (GenericHelp "reactivate")
            else Raise (KeyError command)) as ->.
  { unfold _parse_and_set_args. rewrite (help_requested_iff _ Hhelp).
    destruct command; [done|]. reflexivity. }
  repeat split.
  - by intros ->.
  - by intros ->.
  - intros [-> | [-> | []%elem_of_nil]%elem_of_cons]%elem_of_cons; done.
  - intros Hin. repeat case_decide; try done; subst; destruct Hin;
      apply (bool_decide_unpack _); by vm_compute.
Qed.

(** X18. The commands [deactivate], [reactivate] and [hook] take no
    argument. Without a help flag, [_parse_and_set_args] accepts the
    arguments exactly when each of them is empty or repeats the command;
    any other argument, [--stack] too, gives an [ArgumentError]. *)
Theorem plain_commands_take_no_argument
    (command : string) (arguments : list string) :
  command ∈ ["deactivate"; "reactivate"; "hook"] →
  Forall (λ arg, arg ∉ help_flags) arguments →
  (Forall (λ arg, ¬ stray command arg) arguments →
   _parse_and_set_args (Some (command :: arguments))
   = Ok {| command := command; stack := None; env_name_or_prefix := None |})
  ∧ (Exists (stray command) arguments →
     ∃ msg, _parse_and_set_args (Some (command :: arguments))
            = Raise (ArgumentError msg)).
Proof.
  intros Hcmd Hhelp.
  assert (_parse_and_set_args (Some (command :: arguments))
          = match filter (stray command) arguments with
            | _ :: _ => Raise (ArgumentError "does not accept arguments")
            | [] => Ok {| command := command; stack := None;
                          env_name_or_prefix := None |}
            end) as ->.
  { unfold _parse_and_set_args.
    rewrite (filter_all _ _ Hhelp), Nat.eqb_refl. cbn [negb].
    repeat (apply elem_of_cons in Hcmd as [-> | Hcmd]; [reflexivity|]).
    by apply elem_of_nil in Hcmd. }
  split.
  - intros Hall. by rewrite (filter_none _ _ Hall).
  - intros (arg & Hin & Hstray)%Exists_exists.
    assert (arg ∈ filter (stray command) arguments) as Hf
      by (by apply list_elem_of_filter).
    destruct (filter (stray command) arguments); [by apply elem_of_nil in Hf|].
    by eexists.
Qed.

(** X19. The command [activate] takes one target. Without a help flag,
    when one positional argument is left it is the target, and the
    environments are stacked exactly when [--stack] stands among the
    arguments; only the first [--stack] is taken for the flag. With more
    than one positional argument left, an [ArgumentError] is raised. *)
Theorem activate_takes_one_target (arguments : list string) :
  Forall (λ arg, arg ∉ help_flags) arguments →
  (∀ target, positional_args arguments = [target] →
     _parse_and_set_args (Some ("activate" :: arguments))
     = Ok {| command := "activate";
             stack := Some (bool_decide ("--stack" ∈ arguments));
             env_name_or_prefix := Some target |})
  ∧ (1 < length (positional_args arguments) →
     ∃ msg, _parse_and_set_args (Some ("activate" :: arguments))
            = Raise (ArgumentError msg)).
Proof.
  intros Hhelp.
  set (kept := filter (λ arg, arg ≠ EmptyString ∧ arg ≠ "activate") arguments).
  assert (_parse_and_set_args (Some ("activate" :: arguments))
          = if 1 <? length (positional_args arguments)
            then Raise (ArgumentError "does not accept more than one argument")
            else Ok {| command := "activate";
                       stack := Some (bool_decide ("--stack" ∈ arguments));
                       env_name_or_prefix := Some
                         match positional_args arguments with
                         | [] => "base"
                         | arg :: _ =>
                             if PyStr.is_empty arg then "base" else arg
                         end |}) as ->.
  { unfold _parse_and_set_args, positional_args.
    rewrite (filter_all _ _ Hhelp), Nat.eqb_refl. cbn [negb PyStr.is_empty].
    rewrite bool_decide_eq_false_2
      by (intros Hin; apply Hin; apply (bool_decide_unpack _); by vm_compute).
    destruct (decide ("activate" = "activate")); [|done]. fold kept.
    destruct (decide ("--stack" ∈ arguments)) as [Hin | Hin].
    - rewrite (bool_decide_eq_true_2 _ Hin).
      assert ("--stack" ∈ kept) as Hk.
      { apply list_elem_of_filter. repeat split; [str_ne | str_ne | done]. }
      by destruct (list_index_Some _ _ Hk) as [i ->].
    - rewrite (bool_decide_eq_false_2 _ Hin).
      rewrite list_index_None; [done|].
      by intros [_ ?]%list_elem_of_filter. }
  split.
  - intros target Hone. rewrite Hone. cbn [length Nat.ltb Nat.leb].
    assert (target ∈ kept) as Hk.
    { assert (target ∈ positional_args arguments) as Hin
        by (rewrite Hone; by left).
      unfold positional_args in Hin. fold kept in Hin.
      destruct (list_index "--stack" kept);
        [by eapply list_elem_of_delete_inv | done]. }
    apply list_elem_of_filter in Hk as [[Hne _] _].
    by destruct target.
  - intros Hlen. apply Nat.ltb_lt in Hlen. rewrite Hlen. by eexists.
Qed.

Section front_more.

Variable h : Host.
Variable self : Activator.
Variable environ : gmap string string.

Lemma join_terminated (commands : list string) :
  PyStr.join (command_join self) (commands ++ [EmptyString])
  = each_terminated self commands.
Proof.
  induction commands as [|c commands IH]; [done|].
  unfold each_terminated. cbn [foldr]. fold (each_terminated self commands).
  rewrite <- IH. by destruct commands.
Qed.

(** X20. [_finalize] ends every command with the joiner of the shell:
    the text is the commands, each followed by [command_join], so that no
    command gives the empty text and the last command is terminated too.
    The text goes to the standard output when the shell has no file
    extension, and to a temporary file with that suffix otherwise; an
    empty extension is refused with [NotImplementedError]. *)
Theorem finalize_terminates_each_command
    (commands : list string) (ext : option string) :
  _finalize self commands ext
  = match ext with
    | None => Ok (Stdout (each_terminated self commands))
    | Some EmptyString => Raise NotImplementedError
    | Some suffix => Ok (TempFile suffix (each_terminated self commands))
    end.
Proof.
  unfold _finalize. rewrite join_terminated. by destruct ext as [[|]|].
Qed.

(** X21. With nothing active nothing is printed. At level 0, or without
    [CONDA_PREFIX], the commands [deactivate] and [reactivate] of a shell
    that writes to the standard output give the empty text: no command
    and no line end. *)
Theorem nothing_active_prints_nothing (command : string) :
  command ∈ ["deactivate"; "reactivate"] →
  tempfile_extension self = None →
  level_zero environ ∨ (no_prefix environ ∧ is_Ok (conda_shlvl environ)) →
  execute h self environ (Some [command]) = Ok (Stdout EmptyString).
Proof.
  intros Hcmd Hext Hnone.
  assert (build_deactivate h self environ = Ok no_op
          ∧ build_reactivate h self environ = Ok no_op) as [Hd Hr].
  { unfold build_deactivate, build_reactivate.
    destruct Hnone as [Hz | [Hp HL]].
    - rewrite (conda_shlvl_level_zero environ Hz). simpl.
      by rewrite !orb_true_r.
    - destruct HL as [L ->].
      by rewrite !bind_Ok, (py_not_no_prefix environ Hp). }
  apply elem_of_cons in Hcmd as [-> | [-> | []%elem_of_nil]%elem_of_cons].
  - unfold execute. cbn. unfold deactivate. rewrite Hd, bind_Ok, Hext.
    reflexivity.
  - unfold execute. cbn. unfold reactivate. rewrite Hr, bind_Ok, Hext.
    reflexivity.
Qed.

End front_more.

(** ** The scripts and the shells *)

Section shells_more.

Variable h : Host.

Lemma path_conversion_seq_id (self : Activator) (l : list string) :
  converts_nothing h self → path_conversion_seq h self l = Ok l.
Proof.
  intros [Hw | Hid]; unfold path_conversion_seq.
  - unfold native_path_to_unix_seq. rewrite Hw. by destruct (path_conversion self).
  - by rewrite Hid.
Qed.

(** X22. The scripts run in the order of their names. When the shell
    converts no path, [_get_activate_scripts] gives the files the pattern
    [etc/conda/activate.d/*<ext>] matches in ascending order, and
    [_get_deactivate_scripts] gives those of [deactivate.d] in descending
    order; in both cases these files and no others, whatever the order in
    which [glob] lists them. *)
Theorem scripts_run_in_name_order (self : Activator) (prefix : string) :
  converts_nothing h self →
  (∃ scripts,
     _get_activate_scripts h self prefix = Ok scripts
     ∧ Sorted String.le scripts
     ∧ scripts ≡ₚ glob h (join h prefix
         ["etc"; "conda"; "activate.d"; "*" +:+ script_extension self]))
  ∧ (∃ scripts,
       _get_deactivate_scripts h self prefix = Ok scripts
       ∧ Sorted (flip String.le) scripts
       ∧ scripts ≡ₚ glob h (join h prefix
           ["etc"; "conda"; "deactivate.d"; "*" +:+ script_extension self])).
Proof.
  intros Hid. split; eexists; (split; [by apply path_conversion_seq_id|]).
  - split; [apply (Sorted_merge_sort _) | apply merge_sort_Permutation].
  - split.
    + apply Sorted_reverse, (Sorted_merge_sort _).
    + unfold sorted_reverse.
      by rewrite reverse_Permutation, merge_sort_Permutation,
        reverse_Permutation.
Qed.

(** X23. The step a shell adds to an activation touches one name. For
    every shell of [activator_map], [_build_activate_shell_custom] leaves
    all exported names but [PYTHONIOENCODING] as they are, and off Windows
    it returns the exported names unchanged. *)
Theorem custom_step_touches_one_name (shell : string) (self : Activator) :
  activator_map h shell = Some self →
  custom_keeps self
  ∧ (on_win h = false → ∀ d, _build_activate_shell_custom self d = d).
Proof.
  unfold activator_map. intros Hmap.
  repeat case_match; simplify_eq; (split; [intros d k Hk | intros Hw d]);
    try reflexivity.
  - cbn. destruct (on_win h); [|done]. by apply get_update_ne.
  - cbn. by rewrite Hw.
Qed.

Lemma shells_with_a_preamble (shell : string) (self : Activator) :
  activator_map h shell = Some self →
  (shell ∈ ["cmd.exe"; "powershell"]
   ∧ _hook_preamble self = Raise NotImplementedError)
  ∨ ((shell ∉ ["cmd.exe"; "powershell"])
     ∧ is_Ok (_hook_preamble self) ∧ is_Some (hook_source_path self)).
Proof.
  unfold activator_map. intros Hmap. repeat case_match; simplify_eq.
  all: repeat match goal with
       | H : bool_decide (_ ∈ _) = true |- _ =>
           apply bool_decide_eq_true_1 in H;
           repeat (apply elem_of_cons in H as [-> | H]);
           [..| by apply elem_of_nil in H]
       | H : bool_decide _ = false |- _ => clear H
       | H : _ ≠ _ |- _ => clear H
       end.
  all: first
    [ left; split; [apply (bool_decide_unpack _); by vm_compute | reflexivity]
    | right; split; [apply (bool_decide_unpack _); by vm_compute|];
      split; [cbn; destruct (on_win h); by eexists | by eexists] ].
Qed.

(** X24. Which shells have a hook. For a shell of [activator_map],
    [hook] returns a text exactly when the shell is neither [cmd.exe]
    nor [powershell] and its hook file can be read; for these two shells
    it raises [NotImplementedError], which is what asking for the
    preamble gives, before any file is opened. *)
Theorem hook_needs_a_preamble
    (shell : string) (self : Activator) (auto : option bool) :
  activator_map h shell = Some self →
  (is_Ok (hook h self auto)
   ↔ ((shell ∉ ["cmd.exe"; "powershell"])
      ∧ ∃ path, hook_source_path self = Some path
                ∧ is_Ok (read_file h path)))
  ∧ (shell ∈ ["cmd.exe"; "powershell"] →
     hook h self auto = Raise NotImplementedError).
Proof.
  intros Hmap.
  destruct (shells_with_a_preamble _ _ Hmap)
    as [[Hin Hpre] | (Hout & [pre Hpre] & [path Hpath])].
  - split; [|intros _; unfold hook; by rewrite Hpre]. split.
    + unfold hook. rewrite Hpre. by intros [? ?].
    + by intros [? _].
  - split; [|done]. unfold hook. rewrite Hpre, Hpath, bind_Ok. split.
    + intros [text Htext]. split; [done|]. exists path. split; [done|].
      destruct (read_file h path); [by eexists | done].
    + intros (_ & ? & [= <-] & [source ->]). by eexists.
Qed.

End shells_more.

(** ** The prompt *)

Lemma startswith_app (m s : string) : PyStr.startswith m (m +:+ s) = true.
Proof.
  induction m as [|a m IH]; [done|]. rewrite app_cons. simpl.
  by rewrite bool_decide_eq_true_2, IH.
Qed.

Lemma replace_go_skip (old new p s : string) :
  PyStr.replace_go old new (String.length p) (p +:+ s)
  = PyStr.replace_go old new 0 s.
Proof. induction p as [|a p IH]; [done|]. rewrite app_cons. exact IH. Qed.

Lemma replace_absent (old new s : string) :
  occurs old s = false → PyStr.replace old new s = s.
Proof.
  unfold PyStr.replace. induction s as [|c s IH]; [done|].
  cbn [occurs]. intros [Hhere Hlater]%orb_false_iff.
  cbn [PyStr.replace_go]. rewrite Hhere. f_equal. by apply IH.
Qed.

Lemma replace_leading (m ps : string) :
  m ≠ EmptyString → occurs m ps = false →
  PyStr.replace m EmptyString (m +:+ ps) = ps.
Proof.
  intros Hne Hno. destruct m as [|a m]; [done|].
  unfold PyStr.replace. rewrite app_cons. cbn [PyStr.replace_go].
  rewrite <- app_cons, startswith_app. cbv iota. rewrite app_empty.
  cbn [String.length]. rewrite Nat.sub_1_r. cbn [Nat.pred].
  rewrite replace_go_skip. by apply replace_absent.
Qed.

(** X25. The prompt modifier is swapped, not stacked. When the prompt
    variable begins with the current modifier and the modifier does not
    occur in the rest of it, the [_update_prompt] of the POSIX shells and
    of csh sets the variable to the new modifier followed by that rest;
    for the POSIX shells, which quote, the rest is to hold no single
    quote. *)
Theorem prompt_modifier_is_swapped
    (var : string) (quote : bool) (environ : gmap string string)
    (set_vars : dict) (current new rest : string) :
  current ≠ EmptyString →
  environ !! var = Some (current +:+ rest) →
  environ !! "CONDA_PROMPT_MODIFIER" = Some current →
  occurs current rest = false →
  (quote = true → occurs "'" rest = false) →
  Dict.get var (update_prompt_var var quote environ set_vars new)
  = Some (VStr (new +:+ rest)).
Proof.
  intros Hne Hvar Hcur Hno Hquote. unfold update_prompt_var.
  rewrite Hvar, Hcur, get_update_eq. cbn [default].
  destruct current as [|a current]; [done|]. cbn [PyStr.is_empty].
  unfold id. rewrite (replace_leading _ _ Hne Hno).
  destruct quote; [|done]. by rewrite (replace_absent _ _ _ (Hquote eq_refl)).
Qed.

(** ** Without [PATH] *)

Section path_needed.

Variable h : Host.
Variable self : Activator.
Variable environ : gmap string string.

Hypothesis posix : on_win h = false.
Hypothesis no_path : environ !! "PATH" = None.

Lemma starting_path_list_missing :
  starting_path_list h self environ None = Raise (KeyError "PATH").
Proof.
  unfold starting_path_list, _get_starting_path_list. by rewrite no_path.
Qed.

Lemma replace_missing (old new : option string) :
  _replace_prefix_in_path h self environ old new None
  = Raise (KeyError "PATH").
Proof.
  unfold _replace_prefix_in_path.
  rewrite !(path_conversion_opt_posix h self _ posix), !bind_Ok.
  by rewrite starting_path_list_missing.
Qed.

Lemma add_missing (E : string) :
  _add_prefix_to_path h self environ E None = Raise (KeyError "PATH").
Proof.
  unfold _add_prefix_to_path.
  rewrite (path_conversion_str_posix h self _ posix), bind_Ok.
  by rewrite starting_path_list_missing.
Qed.

(** X26. The path cannot be edited without [PATH]. On a POSIX host, when
    the environment holds no [PATH], every command that has a path to
    edit raises [KeyError]: [build_activate] and [build_stack] of an
    environment that is found and is neither the current one nor the one
    of the level below; [build_reactivate] at a level [L ≥ 1];
    [build_deactivate] at level 1. *)
Theorem path_editing_needs_PATH :
  (∀ target E L stacking,
     resolve_prefix h target = Ok E → conda_shlvl environ = Ok L →
     ¬ (environ !! "CONDA_PREFIX" = Some E ∧ (0 < L)%Z) →
     environ !! CONDA_PREFIX_ (L - 1) ≠ Some E →
     _build_activate_stack h self environ target stacking
     = Raise (KeyError "PATH"))
  ∧ (∀ P L,
       environ !! "CONDA_PREFIX" = Some P → P ≠ EmptyString →
       conda_shlvl environ = Ok L → (1 ≤ L)%Z →
       build_reactivate h self environ = Raise (KeyError "PATH"))
  ∧ (∀ P,
       environ !! "CONDA_PREFIX" = Some P → P ≠ EmptyString →
       conda_shlvl environ = Ok 1%Z →
       build_deactivate h self environ = Raise (KeyError "PATH")).
Proof.
  repeat split.
  - intros target E L stacking Hres HL Hcur Hprev.
    unfold _build_activate_stack. rewrite Hres, HL, !bind_Ok.
    fold (CONDA_PREFIX_ (L - 1)).
    assert (bool_decide (environ !! "CONDA_PREFIX" = Some E) && (0 <? L)%Z
            = false) as ->.
    { apply andb_false_iff. case_bool_decide; [|by left].
      right. apply Z.ltb_ge. destruct (Z.ltb_spec 0 L); [|done].
      by destruct Hcur. }
    destruct (activate_scripts_posix h self E posix) as [acs ->].
    rewrite bind_Ok.
    destruct (Z.eqb_spec L 0) as [-> | Hne].
    + by rewrite add_missing.
    + rewrite bool_decide_eq_false_2 by done.
      destruct stacking; [by rewrite add_missing | by rewrite replace_missing].
  - intros P L HP Hne HL Hle. unfold build_reactivate.
    rewrite HL, HP, bind_Ok. destruct P as [|a P]; [done|].
    cbn [py_not PyStr.is_empty orb].
    rewrite (proj2 (Z.ltb_ge L 1)) by lia. by rewrite replace_missing.
  - intros P HP Hne HL. unfold build_deactivate.
    rewrite HL, HP, bind_Ok. destruct P as [|a P]; [done|].
    cbn [py_not PyStr.is_empty orb].
    change (1 <? 1)%Z with false. cbv iota.
    change (default EmptyString (Some (String a P))) with (String a P).
    destruct (deactivate_scripts_posix h self (String a P) posix) as [ds ->].
    rewrite bind_Ok. change (1 =? 1)%Z with true. cbv iota.
    unfold _remove_prefix_from_path. by rewrite replace_missing.
Qed.

End path_needed.

(** ** The plan runner *)

Section plan_facts.

Variable Args : Type.
Variable World : Type.
Variable operations : string → option (Args → World → Plan.outcome * World).

(** X27. A plan whose steps are all completed is left alone. When every
    step holds the result [modified] or [no change], [run_plan] calls no
    operation: the plan and the state of the machine are as before, and
    nothing is raised, also when the name of a step is that of no
    operation. *)
Theorem completed_plan_is_left_alone (plan : list (Plan.step Args)) (w : World) :
  Forall (λ s, Plan.completed s = true) plan →
  Plan.run_plan operations plan w = (plan, w, None).
Proof.
  induction 1 as [|s plan Hs _ IH]; [done|].
  cbn [Plan.run_plan]. by rewrite Hs, IH.
Qed.

(** X28. [run_plan] writes results and nothing else. Whatever the
    operations do, the plan it leaves has the steps of the plan it was
    given, with their functions and arguments, and every step that was
    completed holds the result it held. *)
Theorem run_plan_writes_results_only
    (plan : list (Plan.step Args)) (w : World) :
  Forall2
    (λ before after,
       Plan.step_function after = Plan.step_function before
       ∧ Plan.step_args after = Plan.step_args before
       ∧ (Plan.completed before = true → after = before))
    plan (Plan.run_plan operations plan w).1.1.
Proof.
  revert w. induction plan as [|s plan IH]; intros w; [by constructor|].
  assert (∀ l : list (Plan.step Args),
            Forall2
              (λ before after,
                 Plan.step_function after = Plan.step_function before
                 ∧ Plan.step_args after = Plan.step_args before
                 ∧ (Plan.completed before = true → after = before)) l l)
    as Hsame by (intros l; by apply Forall_Forall2_diag, Forall_true).
  cbn [Plan.run_plan]. destruct (Plan.completed s) eqn:Hs.
  - specialize (IH w).
    destruct (Plan.run_plan operations plan w) as [[ran w'] e].
    by constructor.
  - destruct (operations (Plan.step_function s)) as [operation|];
      [|by apply Hsame].
    destruct (operation (Plan.step_args s) w) as [[r | | e] w'];
      [| |by apply Hsame].
    + specialize (IH w').
      destruct (Plan.run_plan operations plan w') as [[ran w''] e].
      constructor; [|done]. repeat split; congruence.
    + specialize (IH w').
      destruct (Plan.run_plan operations plan w') as [[ran w''] e].
      constructor; [|done]. repeat split; congruence.
Qed.

(** X29. A run that ends without an exception leaves no step without a
    result; and a run ends without an exception when every step is
    completed or names an operation that returns or raises an
    [EnvironmentError], which is recorded as [needs sudo]. *)
Theorem run_plan_fills_every_result (plan : list (Plan.step Args)) (w : World) :
  ((Plan.run_plan operations plan w).2 = None →
   Forall (λ s, is_Some (Plan.step_result s)) (Plan.run_plan operations plan w).1.1)
  ∧ (Forall (λ s, Plan.completed s = true
                  ∨ ∃ operation,
                      operations (Plan.step_function s) = Some operation
                      ∧ ∀ a w' e, (operation a w').1 ≠ Plan.Raised e) plan →
     (Plan.run_plan operations plan w).2 = None).
Proof.
  split.
  - revert w. induction plan as [|s plan IH]; intros w; [done|].
    cbn [Plan.run_plan]. destruct (Plan.completed s) eqn:Hs.
    + specialize (IH w).
      destruct (Plan.run_plan operations plan w) as [[ran w'] e].
      intros He. constructor; [|by apply IH].
      unfold Plan.completed in Hs. by destruct (Plan.step_result s).
    + destruct (operations (Plan.step_function s)) as [operation|];
        [|done].
      destruct (operation (Plan.step_args s) w) as [[r | | e] w'];
        [| |done].
      * specialize (IH w').
        destruct (Plan.run_plan operations plan w') as [[ran w''] e].
        intros He. constructor; [by eexists | by apply IH].
      * specialize (IH w').
        destruct (Plan.run_plan operations plan w') as [[ran w''] e].
        intros He. constructor; [by eexists | by apply IH].
  - intros Hall. revert w.
    induction Hall as [|s plan Hs _ IH]; intros w; [done|].
    cbn [Plan.run_plan]. destruct (Plan.completed s) eqn:Hc.
    + specialize (IH w).
      by destruct (Plan.run_plan operations plan w) as [[ran w'] e].
    + destruct Hs as [? | (operation & -> & Hop)]; [done|].
      specialize (Hop (Plan.step_args s) w).
      destruct (operation (Plan.step_args s) w) as [[r | | e] w'].
      * specialize (IH w').
        by destruct (Plan.run_plan operations plan w') as [[ran w''] e].
      * specialize (IH w').
        by destruct (Plan.run_plan operations plan w') as [[ran w''] e].
      * by destruct (Hop e).
Qed.

End plan_facts.

(** ** The further properties on the sample hosts *)

Lemma custom_keeps_sh : custom_keeps sh.
Proof. intros d k _. reflexivity. Qed.

Lemma new_directories_stand_together_witness :
  ∃ pre rest,
    ["/usr/bin"; "/opt/conda/envs/B/bin"; "/bin"]
    = pre ++ _get_path_dirs2 posix_host sh
               (converted posix_host sh "/opt/conda/envs/B") ++ rest.
Proof.
  apply (new_directories_stand_together posix_host sh ∅
           (Some "/opt/conda/envs/A") "/opt/conda/envs/B"
           (Some ["/usr/bin"; "/opt/conda/envs/A/bin"; "/bin"])).
  left. reflexivity.
Defined.

Lemma replace_swaps_one_entry_witness :
  _replace_prefix_in_path posix_host sh ∅
    (Some "/opt/conda/envs/A") (Some "/opt/conda/envs/B")
    (Some ["/usr/bin"; "/opt/conda/envs/A/bin"; "/bin"])
  = Ok ["/usr/bin"; "/opt/conda/envs/B/bin"; "/bin"].
Proof.
  apply (replace_swaps_one_entry posix_host sh ∅
           "/opt/conda/envs/A" "/opt/conda/envs/B"
           ["/usr/bin"; "/opt/conda/envs/A/bin"; "/bin"]).
  reflexivity.
Defined.

Lemma remove_deletes_first_match_witness :
  _remove_prefix_from_path posix_host sh ∅ (Some "/opt/conda/envs/A")
    (Some ["/usr/bin"; "/opt/conda/envs/A/bin"; "/bin"; "/opt/conda/envs/A/bin"])
  = Ok ["/usr/bin"; "/bin"; "/opt/conda/envs/A/bin"].
Proof.
  apply (remove_deletes_first_match posix_host sh ∅ "/opt/conda/envs/A"
           ["/usr/bin"; "/opt/conda/envs/A/bin"; "/bin";
            "/opt/conda/envs/A/bin"]).
  reflexivity.
Defined.

Lemma replace_back_and_forth_witness :
  ∃ P',
    _replace_prefix_in_path posix_host sh ∅
      (Some "/opt/conda/envs/A") (Some "/opt/conda/envs/B")
      (Some ["/usr/bin"; "/opt/conda/envs/A/bin"; "/bin"]) = Ok P'
    ∧ _replace_prefix_in_path posix_host sh ∅
        (Some "/opt/conda/envs/B") (Some "/opt/conda/envs/A") (Some P')
      = Ok ["/usr/bin"; "/opt/conda/envs/A/bin"; "/bin"].
Proof.
  apply (replace_back_and_forth posix_host sh ∅
           "/opt/conda/envs/A" "/opt/conda/envs/B"
           ["/usr/bin"; "/opt/conda/envs/A/bin"; "/bin"] 1);
    reflexivity.
Defined.

Lemma stack_at_level_zero_is_activate_witness :
  build_stack posix_host sh at_zero "/opt/conda/envs/A"
  = build_activate posix_host sh at_zero "/opt/conda/envs/A".
Proof.
  apply (stack_at_level_zero_is_activate posix_host sh at_zero).
  reflexivity.
Defined.

Lemma activate_at_level_zero_witness :
  ∃ c, build_activate posix_host sh at_zero "/opt/conda/envs/A" = Ok c
       ∧ Dict.get "CONDA_SHLVL" (export_vars c) = Some (VInt 1)
       ∧ Dict.get "CONDA_PREFIX" (export_vars c)
         = Some (VStr "/opt/conda/envs/A").
Proof.
  destruct (activate_at_level_zero posix_host sh at_zero
              "/opt/conda/envs/A" "/opt/conda/envs/A")
    as [Hsets Hreturns]; [reflexivity | reflexivity | exact custom_keeps_sh |].
  destruct Hreturns as [c Hc]; [reflexivity | by eexists |].
  exists c. split; [exact Hc|].
  destruct (Hsets c Hc) as (_ & _ & _ & Hlevel & Hprefix & _).
  split; [exact Hlevel | exact Hprefix].
Defined.

Lemma deactivate_pops_one_level_witness :
  ∃ c, build_deactivate posix_host sh B_on_A = Ok c
       ∧ Dict.get "CONDA_SHLVL" (export_vars c) = Some (VInt 1)
       ∧ Dict.get "CONDA_PREFIX" (export_vars c)
         = Some (VStr "/opt/conda/envs/A")
       ∧ "CONDA_STACKED_2" ∈ unset_vars c.
Proof.
  eexists. split; [vm_compute; reflexivity|].
  edestruct (deactivate_pops_one_level posix_host sh B_on_A
               "/opt/conda/envs/B" 2%Z)
    as (Hlevel & _ & prior & Hprior & Hprefix & _ & _ & Hstacked);
    [reflexivity | done | reflexivity | lia | vm_compute; reflexivity |].
  split; [exact Hlevel|].
  vm_compute in Hprior. injection Hprior as <-.
  split; [exact Hprefix|].
  apply Hstacked. by eexists.
Defined.

Lemma activating_previous_is_deactivate_witness :
  build_activate posix_host sh B_on_A "/opt/conda/envs/A"
  = build_deactivate posix_host sh B_on_A.
Proof.
  apply (activating_previous_is_deactivate posix_host sh B_on_A
           "/opt/conda/envs/A" "/opt/conda/envs/A" 2%Z false);
    [reflexivity | reflexivity | lia | discriminate | reflexivity
    | by eexists].
Defined.

Lemma push_exports_next_level_witness :
  ∃ c, build_stack posix_host sh in_A "/opt/conda/envs/B" = Ok c
       ∧ Dict.get "CONDA_SHLVL" (export_vars c) = Some (VInt 2)
       ∧ Dict.get "CONDA_PREFIX_1" (export_vars c)
         = Some (VStr "/opt/conda/envs/A")
       ∧ Dict.get "CONDA_STACKED_2" (export_vars c) = Some (VStr "true").
Proof.
  eexists. split; [vm_compute; reflexivity|].
  edestruct (push_exports_next_level posix_host sh in_A
               "/opt/conda/envs/B" "/opt/conda/envs/B" 1%Z true)
    as (_ & _ & Hlevel & _ & Hsaved & Hstacked & _);
    [ reflexivity | reflexivity | done | by intros [[=] _] | discriminate
    | exact custom_keeps_sh | vm_compute; reflexivity | ].
  split; [exact Hlevel|]. split; [exact Hsaved | exact Hstacked].
Defined.

Lemma prompt_disabled_sets_nothing_witness :
  ∃ c, build_reactivate quiet_host (PosixActivator quiet_host) in_A = Ok c
       ∧ set_vars c = [].
Proof.
  eexists. split; [vm_compute; reflexivity|].
  eapply (prompt_disabled_sets_nothing quiet_host (PosixActivator quiet_host)
            in_A EmptyString false); [reflexivity|].
  right. left. vm_compute. reflexivity.
Defined.

Lemma activate_then_deactivate_restores_PATH_witness :
  ∃ c', build_deactivate posix_host sh in_A = Ok c'
        ∧ Dict.get "PATH" (export_vars c') = Some (VStr "/usr/bin:/bin")
        ∧ Dict.get "CONDA_SHLVL" (export_vars c') = Some (VInt 0).
Proof.
  eapply (activate_then_deactivate_restores_PATH posix_host sh at_zero in_A
            "/opt/conda/envs/A" "/opt/conda/envs/A" "/usr/bin:/bin");
    [ reflexivity | reflexivity | reflexivity | done | exact custom_keeps_sh
    | reflexivity | reflexivity | reflexivity | vm_compute; reflexivity
    | reflexivity | reflexivity | reflexivity ].
Defined.

Lemma exported_level_reads_back_witness :
  conda_shlvl (<["CONDA_SHLVL" := "12"]> ∅) = Ok 12%Z.
Proof.
  apply (exported_level_reads_back (<["CONDA_SHLVL" := "12"]> ∅)
           {| unset_vars := []; set_vars := [];
              export_vars := [("CONDA_SHLVL", VInt 12)];
              deactivate_scripts := []; activate_scripts := [] |} 12%Z);
    reflexivity.
Defined.



Lemma help_flag_wins_witness :
  _parse_and_set_args (Some ["frobnicate"; "base"; "--help"])
  = Raise (KeyError "frobnicate").
Proof.
  apply (help_flag_wins "frobnicate" ["base"; "--help"]).
  - done.
  - right. left. in_list.
  - apply (bool_decide_unpack _). vm_compute. exact I.
Defined.

Lemma plain_commands_take_no_argument_witness :
  ∃ msg, _parse_and_set_args (Some ["deactivate"; "--stack"])
         = Raise (ArgumentError msg).
Proof.
  apply (plain_commands_take_no_argument "deactivate" ["--stack"]).
  - in_list.
  - constructor; [|constructor]. apply (bool_decide_unpack _). vm_compute. exact I.
  - left. split; done.
Defined.

Lemma activate_takes_one_target_witness :
  _parse_and_set_args (Some ["activate"; "--stack"; "--stack"])
  = Ok {| command := "activate"; stack := Some true;
          env_name_or_prefix := Some "--stack" |}.
Proof.
  apply (proj1 (activate_takes_one_target ["--stack"; "--stack"]
                  ltac:(repeat constructor;
                        apply (bool_decide_unpack _); vm_compute; exact I))
           "--stack").
  reflexivity.
Defined.

Lemma nothing_active_prints_nothing_witness :
  execute posix_host sh at_zero (Some ["deactivate"]) = Ok (Stdout EmptyString).
Proof.
  apply (nothing_active_prints_nothing posix_host sh at_zero "deactivate");
    [in_list | reflexivity |].
  left. unfold level_zero.
  change (at_zero !! "CONDA_SHLVL") with (@None string). exact I.
Defined.

Lemma scripts_run_in_name_order_witness :
  ∃ scripts,
    _get_deactivate_scripts posix_host sh "/opt/conda/envs/A" = Ok scripts
    ∧ Sorted (flip String.le) scripts
    ∧ scripts ≡ₚ ["/opt/conda/envs/A/etc/conda/deactivate.d/10-a.sh";
                  "/opt/conda/envs/A/etc/conda/deactivate.d/20-b.sh"].
Proof.
  apply (scripts_run_in_name_order posix_host sh "/opt/conda/envs/A").
  left. reflexivity.
Defined.

Lemma custom_step_touches_one_name_witness : custom_keeps cmd.
Proof.
  apply (custom_step_touches_one_name win_host "cmd.exe" cmd). reflexivity.
Defined.

Lemma hook_needs_a_preamble_witness :
  hook win_host cmd None = Raise NotImplementedError.
Proof.
  apply (hook_needs_a_preamble win_host "cmd.exe" cmd None);
    [reflexivity | in_list].
Defined.

Lemma prompt_modifier_is_swapped_witness :
  Dict.get "PS1" (update_prompt_var "PS1" true prompt_A [] "(B) ")
  = Some (VStr "(B) $ ").
Proof.
  apply (prompt_modifier_is_swapped "PS1" true prompt_A [] "(A) " "(B) " "$ ");
    [done | reflexivity | reflexivity | reflexivity | reflexivity].
Defined.

Lemma path_editing_needs_PATH_witness :
  build_activate posix_host sh ∅ "/opt/conda/envs/A" = Raise (KeyError "PATH").
Proof.
  apply (proj1 (path_editing_needs_PATH posix_host sh ∅
                  ltac:(reflexivity) ltac:(reflexivity))
           "/opt/conda/envs/A" "/opt/conda/envs/A" 0%Z false);
    [reflexivity | reflexivity | by intros [[=] _] | discriminate].
Defined.

Lemma completed_plan_is_left_alone_witness :
  Plan.run_plan sample_operations done_plan 7 = (done_plan, 7, None).
Proof.
  apply (completed_plan_is_left_alone unit nat sample_operations done_plan 7).
  repeat constructor.
Defined.

Lemma run_plan_fills_every_result_witness :
  (Plan.run_plan sample_operations fresh_plan 0).2 = None.
Proof.
  apply (run_plan_fills_every_result unit nat sample_operations fresh_plan 0).
  constructor;
    [right; eexists; split; [reflexivity | intros a w e; discriminate]|].
  constructor;
    [right; eexists; split; [reflexivity | intros a w e; discriminate]|].
  constructor.
Defined.
